(** * Hypnosis: the fact store and its facade, verified against the code

    A shallow embedding of [hypnosis/core.py] and [hypnosis/stores.py]:

    - Python text ([str]) is a list of Unicode code points;
    - Python [float] is the kernel's binary64 ([PrimFloat.float]);
    - values that travel through [json.dumps] / [json.loads] are the
      inductive [pyval];
    - the JSONL file is the text it holds (or nothing when the file is
      absent), threaded through [write], [read_all] and [delete];
    - exceptions are results of type [outcome].

    The library functions the code calls ([str.splitlines], [str.strip],
    [str.lower], [json.dumps], [json.loads], [float.__repr__], [list.sort])
    are modelled first, then [core.py], then [stores.py], then the
    theorems. *)

From Stdlib Require Import ZArith List Bool Lia String Ascii Floats.
From Stdlib Require Import DecimalPos Permutation Sorted.
Import ListNotations.

Open Scope Z_scope.
Open Scope list_scope.

(* ================================================================== *)
(** * Python text *)
(* ================================================================== *)

Module Text.

(** A Python [str]: its code points, in order. Lone surrogates, which a
    Python [str] may hold but the UTF-8 codec of the file refuses, are not
    followed by the model (see [stores]). *)
Definition str := list Z.

(** ASCII literal. *)
Fixpoint txt (s : string) : str :=
  match s with
  | EmptyString => []
  | String a r => Z.of_N (N_of_ascii a) :: txt r
  end.

(** ASCII literal in which every apostrophe stands for a double quote, so
    that JSON text can be written down. *)
Definition jtxt (s : string) : str :=
  map (fun c => if c =? 39 then 34 else c) (txt s).

Fixpoint str_eqb (a b : str) : bool :=
  match a, b with
  | [], [] => true
  | x :: a', y :: b' => (x =? y) && str_eqb a' b'
  | _, _ => false
  end.

(** [a < b] on [str]: lexicographic on code points. *)
Fixpoint str_ltb (a b : str) : bool :=
  match a, b with
  | _, [] => false
  | [], _ :: _ => true
  | x :: a', y :: b' => (x <? y) || ((x =? y) && str_ltb a' b')
  end.

(** [str.isspace] of one code point (CPython's [_PyUnicode_IsWhitespace]). *)
Definition isspace (c : Z) : bool :=
  ((9 <=? c) && (c <=? 13)) || ((28 <=? c) && (c <=? 32))
  || (c =? 133) || (c =? 160) || (c =? 5760)
  || ((8192 <=? c) && (c <=? 8202))
  || (c =? 8232) || (c =? 8233) || (c =? 8239) || (c =? 8287) || (c =? 12288).

(** The line boundaries of [str.splitlines]
    (CPython's [_PyUnicode_IsLinebreak]). *)
Definition is_linebreak (c : Z) : bool :=
  ((10 <=? c) && (c <=? 13)) || ((28 <=? c) && (c <=? 30))
  || (c =? 133) || (c =? 8232) || (c =? 8233).

Fixpoint lstrip (s : str) : str :=
  match s with
  | [] => []
  | c :: r => if isspace c then lstrip r else s
  end.

Definition rstrip (s : str) : str := rev (lstrip (rev s)).

(** [s.strip()] *)
Definition strip (s : str) : str := rstrip (lstrip s).

(** [s.splitlines()]: [cur] is the line being read, reversed. A carriage
    return followed by a line feed is one boundary; the text after the last
    boundary is a line only when it is not empty. *)
Fixpoint splitlines_from (cur : str) (s : str) : list str :=
  match s with
  | [] => match cur with [] => [] | _ => [rev cur] end
  | c :: r =>
      if is_linebreak c then
        rev cur ::
          match r with
          | d :: r' => if (c =? 13) && (d =? 10) then splitlines_from [] r'
                       else splitlines_from [] r
          | [] => []
          end
      else splitlines_from (c :: cur) r
  end.

Definition splitlines (s : str) : list str := splitlines_from [] s.

Fixpoint startswith (s p : str) : bool :=
  match p, s with
  | [], _ => true
  | x :: p', y :: s' => (x =? y) && startswith s' p'
  | _ :: _, [] => false
  end.

(** [needle in hay] *)
Fixpoint contains (hay needle : str) : bool :=
  startswith hay needle ||
  match hay with
  | [] => false
  | _ :: r => contains r needle
  end.

Definition ascii_lower (c : Z) : Z :=
  if (65 <=? c) && (c <=? 90) then c + 32 else c.

Definition is_ascii (s : str) : bool := forallb (fun c => c <? 128) s.

Section Lower.
(** [str.lower] on text that is not pure ASCII follows the Unicode
    character database (and its context rule for the final sigma), which
    is not part of the repository: it is a parameter. *)
Variable unicode_lower : str -> str.

(** [s.lower()] *)
Definition lower (s : str) : str :=
  if is_ascii s then map ascii_lower s else unicode_lower s.
End Lower.

End Text.
Import Text.

(* ================================================================== *)
(** * Python floats *)
(* ================================================================== *)

Module PyFloat.

(** [min(a, b)] and [max(a, b)] of the builtins: the first argument is kept
    unless the second is strictly smaller (resp. greater); a NaN never is. *)
Definition py_min (a b : float) : float := if PrimFloat.ltb b a then b else a.
Definition py_max (a b : float) : float := if PrimFloat.ltb a b then b else a.

(** The digits of a non-negative integer, most significant first. *)
Fixpoint uint_digits (u : Decimal.uint) : list Z :=
  match u with
  | Decimal.Nil => []
  | Decimal.D0 r => 0 :: uint_digits r
  | Decimal.D1 r => 1 :: uint_digits r
  | Decimal.D2 r => 2 :: uint_digits r
  | Decimal.D3 r => 3 :: uint_digits r
  | Decimal.D4 r => 4 :: uint_digits r
  | Decimal.D5 r => 5 :: uint_digits r
  | Decimal.D6 r => 6 :: uint_digits r
  | Decimal.D7 r => 7 :: uint_digits r
  | Decimal.D8 r => 8 :: uint_digits r
  | Decimal.D9 r => 9 :: uint_digits r
  end.

Definition digits_of (n : Z) : list Z :=
  match n with
  | Zpos p => uint_digits (Pos.to_uint p)
  | _ => [0]
  end.

Definition digit_char (d : Z) : Z := 48 + d.

(** [str(n)] of an [int]. *)
Definition int_repr (n : Z) : str :=
  match n with
  | Zneg p => 45 :: map digit_char (digits_of (Zpos p))
  | _ => map digit_char (digits_of n)
  end.

(** The integer a list of digits denotes. *)
Definition of_digits (ds : list Z) : Z := fold_left (fun acc d => 10 * acc + d) ds 0.

(** [float(text)] for a decimal literal [(-1)^neg * m * 10^e10], rounded to
    the nearest binary64, ties to even (what CPython's [strtod] does). A
    negative power of ten is a division: the quotient is taken with more
    than 53 bits and the remainder decides the rounding. *)
Definition sf_of_dec (neg : bool) (m e10 : Z) : spec_float :=
  match m with
  | Zpos _ =>
      if 0 <=? e10 then
        binary_round prec emax neg (Z.to_pos (m * 10 ^ e10)) 0
      else
        let den := 10 ^ (- e10) in
        let s := Z.max 0 (64 + Z.log2 den - Z.log2 m) in
        let (q, r) := Z.div_eucl (Z.shiftl m s) den in
        let loc := if r =? 0 then loc_Exact
                   else loc_Inexact (Z.compare (2 * r) den) in
        binary_round_aux prec emax neg q (- s) loc
  | _ => S754_zero neg
  end.

Definition float_of_dec (neg : bool) (m e10 : Z) : float :=
  SF2Prim (sf_of_dec neg m e10).

Definition sf_eqb (a b : spec_float) : bool :=
  match a, b with
  | S754_finite s m e, S754_finite s' m' e' =>
      Bool.eqb s s' && Pos.eqb m m' && Z.eqb e e'
  | S754_zero s, S754_zero s' => Bool.eqb s s'
  | S754_infinity s, S754_infinity s' => Bool.eqb s s'
  | S754_nan, S754_nan => true
  | _, _ => false
  end.

Section Shortest.
(** The positive finite float [m * 2^e], as the fraction [P / Q]. *)
Variables (m : positive) (e : Z).

Let P : Z := Zpos m * 2 ^ Z.max e 0.
Let Q : Z := 2 ^ Z.max (- e) 0.

(** [P / Q < 10 ^ d] *)
Definition below_pow10 (d : Z) : bool :=
  if 0 <=? d then P <? Q * 10 ^ d else P * 10 ^ (- d) <? Q.

(** The position of the decimal point: the least [d] with
    [P / Q < 10 ^ d]. *)
Fixpoint find_decpt (fuel : nat) (d : Z) : Z :=
  match fuel with
  | O => d
  | S fuel' => if below_pow10 d then d else find_decpt fuel' (d + 1)
  end.

Definition decpt : Z := find_decpt 700 (-330).

Definition reads_back (c k : Z) : bool :=
  sf_eqb (sf_of_dec false c (- k)) (S754_finite false m e).

(** The shortest decimal that reads back as the float and, among those
    of that length, the nearest to it: for [n] = 1, 2, ... digits the two
    neighbours of [P / Q] with [n] significant digits are tried. *)
Fixpoint shortest_from (fuel : nat) (n : Z) : Z * Z :=
  let k := n - decpt in
  let num := if 0 <=? k then P * 10 ^ k else P in
  let den := if 0 <=? k then Q else Q * 10 ^ (- k) in
  let (lo, r) := Z.div_eucl num den in
  let hi := lo + 1 in
  let pick :=
    match reads_back lo k, reads_back hi k with
    | true, true =>
        match Z.compare (2 * r) den with
        | Lt => Some lo
        | Gt => Some hi
        | Eq => Some (if Z.even lo then lo else hi)
        end
    | true, false => Some lo
    | false, true => Some hi
    | false, false => None
    end in
  match pick, fuel with
  | Some c, _ => (c, k)
  | None, S fuel' => shortest_from fuel' (n + 1)
  | None, O => (lo, k)
  end.

(** The decimal [c * 10 ^ (- k)] found. *)
Definition shortest : Z * Z := shortest_from 16 1.
End Shortest.

Fixpoint drop_zeros (ds : list Z) : list Z :=
  match ds with
  | 0 :: r => drop_zeros r
  | _ => ds
  end.

Definition zeros (n : Z) : list Z := repeat 0 (Z.to_nat n).

(** CPython's [format_float_short] for [repr]: the digits [ds] with the
    decimal point after the first [pt] of them. *)
Definition format_repr (ds : list Z) (pt : Z) : str :=
  if (pt <=? -4) || (16 <? pt) then
    let ex := pt - 1 in
    let exd := digits_of (Z.abs ex) in
    let exd := match exd with [_] => 0 :: exd | _ => exd end in
    match ds with
    | [] => []
    | d :: r =>
        digit_char d ::
          (match r with [] => [] | _ => 46 :: map digit_char r end)
          ++ 101 :: (if ex <? 0 then 45 else 43) :: map digit_char exd
    end
  else if pt <=? 0 then
    48 :: 46 :: map digit_char (zeros (- pt) ++ ds)
  else if Z.of_nat (List.length ds) <=? pt then
    map digit_char (ds ++ zeros (pt - Z.of_nat (List.length ds))) ++ [46; 48]
  else
    map digit_char (firstn (Z.to_nat pt) ds) ++ 46
      :: map digit_char (skipn (Z.to_nat pt) ds).

(** [float.__repr__] *)
Definition float_repr (x : float) : str :=
  match Prim2SF x with
  | S754_nan => txt "nan"
  | S754_infinity s => (if s then [45] else []) ++ txt "inf"
  | S754_zero s => (if s then [45] else []) ++ txt "0.0"
  | S754_finite s m e =>
      let (c, k) := shortest m e in
      let all := digits_of c in
      let ds := rev (drop_zeros (rev all)) in
      (if s then [45] else []) ++ format_repr ds (Z.of_nat (List.length all) - k)
  end.

End PyFloat.
Import PyFloat.

(* ================================================================== *)
(** * Exceptions *)
(* ================================================================== *)

Inductive exn := JSONDecodeError | KeyError | TypeError | UnicodeEncodeError.

(** What a call comes back with. [Untyped] is not a Python behaviour: it
    marks the places where Python would go on with an object that breaks
    the annotations of the [HypnotizedFact] dataclass (say a list for
    [priority]); the model does not follow such objects. *)
Inductive outcome (A : Type) : Type :=
| Ok (a : A)
| Raise (e : exn)
| Untyped.
Arguments Ok {A} a.
Arguments Raise {A} e.
Arguments Untyped {A}.

Definition bind {A B : Type} (m : outcome A) (k : A -> outcome B) : outcome B :=
  match m with
  | Ok a => k a
  | Raise e => Raise e
  | Untyped => Untyped
  end.

Notation "x <- m ;; k" := (bind m (fun x => k))
  (at level 61, m at next level, right associativity).

(** [try: body except handled: fallback] *)
Definition try_except {A : Type} (body : outcome A) (handled : exn -> bool)
    (fallback : outcome A) : outcome A :=
  match body with
  | Raise e => if handled e then fallback else Raise e
  | r => r
  end.

(* ================================================================== *)
(** * The [json] module *)
(* ================================================================== *)

Module Json.

(** The Python values [json.loads] builds and [json.dumps] accepts. A
    [dict] keeps its keys in insertion order; its keys are text. *)
Unset Elimination Schemes.
Inductive pyval :=
| PyNone
| PyBool (b : bool)
| PyInt (z : Z)
| PyFloat (x : float)
| PyStr (s : str)
| PyList (l : list pyval)
| PyDict (d : list (str * pyval)).
Set Elimination Schemes.

Definition dict := list (str * pyval).

(** [d.get(k)] as an option. *)
Fixpoint dict_get (k : str) (d : dict) : option pyval :=
  match d with
  | [] => None
  | (k', v) :: r => if str_eqb k k' then Some v else dict_get k r
  end.

(** [d[k] = v]: a key already there keeps its place. *)
Fixpoint dict_set (k : str) (v : pyval) (d : dict) : dict :=
  match d with
  | [] => [(k, v)]
  | (k', v') :: r =>
      if str_eqb k k' then (k', v) :: r else (k', v') :: dict_set k v r
  end.

(** ** [json.dumps(obj, ensure_ascii=False)] *)

Definition hex_char (d : Z) : Z := if d <? 10 then 48 + d else 87 + d.

(** One character of a string literal: the quote, the backslash and the
    control characters are escaped, everything else is written as it is
    ([ensure_ascii=False]). *)
Definition escape_char (c : Z) : str :=
  if c =? 34 then [92; 34]
  else if c =? 92 then [92; 92]
  else if c =? 10 then [92; 110]
  else if c =? 13 then [92; 114]
  else if c =? 9 then [92; 116]
  else if c =? 8 then [92; 98]
  else if c =? 12 then [92; 102]
  else if (0 <=? c) && (c <? 32) then
    [92; 117; 48; 48; hex_char (c / 16); hex_char (c mod 16)]
  else [c].

Definition encode_str (s : str) : str :=
  34 :: flat_map escape_char s ++ [34].

(** [json.encoder.floatstr] *)
Definition floatstr (x : float) : str :=
  match Prim2SF x with
  | S754_nan => txt "NaN"
  | S754_infinity false => txt "Infinity"
  | S754_infinity true => txt "-Infinity"
  | _ => float_repr x
  end.

Fixpoint dumps (v : pyval) : str :=
  match v with
  | PyNone => txt "null"
  | PyBool true => txt "true"
  | PyBool false => txt "false"
  | PyInt z => int_repr z
  | PyFloat x => floatstr x
  | PyStr s => encode_str s
  | PyList l =>
      91 :: (fix items (l : list pyval) : str :=
               match l with
               | [] => []
               | x :: r =>
                   dumps x ++ match r with [] => [] | _ => 44 :: 32 :: items r end
               end) l ++ [93]
  | PyDict d =>
      123 :: (fix members (d : list (str * pyval)) : str :=
                match d with
                | [] => []
                | (k, x) :: r =>
                    encode_str k ++ 58 :: 32 :: dumps x
                      ++ match r with [] => [] | _ => 44 :: 32 :: members r end
                end) d ++ [125]
  end.

(** ** [json.loads(s)] *)

Definition is_ws (c : Z) : bool :=
  (c =? 32) || (c =? 9) || (c =? 10) || (c =? 13).

Fixpoint skip_ws (s : str) : str :=
  match s with
  | c :: r => if is_ws c then skip_ws r else s
  | [] => []
  end.

Definition is_digit (c : Z) : bool := (48 <=? c) && (c <=? 57).

Definition hex_val (c : Z) : option Z :=
  if (48 <=? c) && (c <=? 57) then Some (c - 48)
  else if (97 <=? c) && (c <=? 102) then Some (c - 87)
  else if (65 <=? c) && (c <=? 70) then Some (c - 55)
  else None.

(** The four hexadecimal digits of a [\uXXXX] escape. *)
Definition hex4 (s : str) : option (Z * str) :=
  match s with
  | a :: b :: c :: d :: r =>
      match hex_val a, hex_val b, hex_val c, hex_val d with
      | Some a, Some b, Some c, Some d =>
          Some (((a * 16 + b) * 16 + c) * 16 + d, r)
      | _, _, _, _ => None
      end
  | _ => None
  end.

(** [scanstring] in strict mode, after the opening quote: the text up to
    the closing quote, and what follows it. A high surrogate escape directly
    followed by a low surrogate escape is one code point. *)
Fixpoint scanstring (fuel : nat) (acc : str) (s : str) : option (str * str) :=
  match fuel with
  | O => None
  | S fuel' =>
      match s with
      | [] => None
      | c :: r =>
          if c =? 34 then Some (rev acc, r)
          else if c =? 92 then
            match r with
            | [] => None
            | e :: r1 =>
                if e =? 117 then
                  match hex4 r1 with
                  | None => None
                  | Some (u, r2) =>
                      let lone := scanstring fuel' (u :: acc) r2 in
                      if (55296 <=? u) && (u <=? 56319) then
                        match r2 with
                        | 92 :: 117 :: r3 =>
                            match hex4 r3 with
                            | None => None
                            | Some (u2, r4) =>
                                if (56320 <=? u2) && (u2 <=? 57343) then
                                  scanstring fuel'
                                    (65536 + (u - 55296) * 1024 + (u2 - 56320)
                                       :: acc) r4
                                else lone
                            end
                        | _ => lone
                        end
                      else lone
                  end
                else
                  let plain (x : Z) := scanstring fuel' (x :: acc) r1 in
                  if e =? 34 then plain 34
                  else if e =? 92 then plain 92
                  else if e =? 47 then plain 47
                  else if e =? 98 then plain 8
                  else if e =? 102 then plain 12
                  else if e =? 110 then plain 10
                  else if e =? 114 then plain 13
                  else if e =? 116 then plain 9
                  else None
            end
          else if (0 <=? c) && (c <? 32) then None
          else scanstring fuel' (c :: acc) r
      end
  end.

(** A run of decimal digits and what follows it. *)
Fixpoint span_digits (s : str) : list Z * str :=
  match s with
  | c :: r =>
      if is_digit c then let (ds, r') := span_digits r in (c - 48 :: ds, r')
      else ([], s)
  | [] => ([], [])
  end.

(** The number at the head of [s], if any: an optional minus sign; a zero
    or a run of digits that does not start with a zero; optionally a dot
    and digits; optionally [e] or [E], a sign and digits. Without fraction
    and exponent it is an [int], otherwise a [float]. *)
Definition match_number (s : str) : option (pyval * str) :=
  let (neg, s1) := match s with 45 :: r => (true, r) | _ => (false, s) end in
  let int_part :=
    match s1 with
    | 48 :: r => Some ([0], r)
    | c :: _ => if is_digit c then Some (span_digits s1) else None
    | [] => None
    end in
  match int_part with
  | None => None
  | Some (ip, s2) =>
      let '(fp, s3) :=
        match s2 with
        | 46 :: r =>
            match span_digits r with
            | ([], _) => (None, s2)
            | (ds, r') => (Some ds, r')
            end
        | _ => (None, s2)
        end in
      let '(ep, s4) :=
        match s3 with
        | c :: r =>
            if (c =? 101) || (c =? 69) then
              let (eneg, r1) :=
                match r with
                | 45 :: r' => (true, r')
                | 43 :: r' => (false, r')
                | _ => (false, r)
                end in
              match span_digits r1 with
              | ([], _) => (None, s3)
              | (ds, r') =>
                  (Some (if eneg then - of_digits ds else of_digits ds), r')
              end
            else (None, s3)
        | [] => (None, s3)
        end in
      match fp, ep with
      | None, None =>
          Some (PyInt (if neg then - of_digits ip else of_digits ip), s4)
      | _, _ =>
          let fd := match fp with Some ds => ds | None => [] end in
          let e10 := match ep with Some e => e | None => 0 end in
          Some (PyFloat (float_of_dec neg (of_digits (ip ++ fd))
                           (e10 - Z.of_nat (List.length fd))), s4)
      end
  end.

(** The value at the head of [s] and what follows it ([scan_once] of the
    decoder); [None] is the decoder giving up. [fuel] bounds the nesting
    and the number of items, [loads] gives more than the text can use. *)
Fixpoint scan_once (fuel : nat) (s : str) : option (pyval * str) :=
  match fuel with
  | O => None
  | S fuel' =>
      match s with
      | 34 :: r =>
          match scanstring (S (List.length r)) [] r with
          | Some (t, r') => Some (PyStr t, r')
          | None => None
          end
      | 123 :: r =>
          match skip_ws r with
          | 125 :: r' => Some (PyDict [], r')
          | r' => scan_members fuel' [] r'
          end
      | 91 :: r =>
          match skip_ws r with
          | 93 :: r' => Some (PyList [], r')
          | r' => scan_items fuel' [] r'
          end
      | _ =>
          if startswith s (txt "null") then Some (PyNone, skipn 4 s)
          else if startswith s (txt "true") then Some (PyBool true, skipn 4 s)
          else if startswith s (txt "false") then Some (PyBool false, skipn 5 s)
          else if startswith s (txt "NaN") then Some (PyFloat nan, skipn 3 s)
          else if startswith s (txt "Infinity") then
            Some (PyFloat infinity, skipn 8 s)
          else if startswith s (txt "-Infinity") then
            Some (PyFloat neg_infinity, skipn 9 s)
          else match_number s
      end
  end

(** The members of an object, from a key on; [acc] holds those read. *)
with scan_members (fuel : nat) (acc : dict) (s : str) : option (pyval * str) :=
  match fuel with
  | O => None
  | S fuel' =>
      match s with
      | 34 :: r =>
          match scanstring (S (List.length r)) [] r with
          | None => None
          | Some (k, r1) =>
              match skip_ws r1 with
              | 58 :: r2 =>
                  match scan_once fuel' (skip_ws r2) with
                  | None => None
                  | Some (v, r3) =>
                      let acc' := dict_set k v acc in
                      match skip_ws r3 with
                      | 125 :: r4 => Some (PyDict acc', r4)
                      | 44 :: r4 => scan_members fuel' acc' (skip_ws r4)
                      | _ => None
                      end
                  end
              | _ => None
              end
          end
      | _ => None
      end
  end

(** The items of an array, from a value on; [acc] holds those read,
    reversed. *)
with scan_items (fuel : nat) (acc : list pyval) (s : str) : option (pyval * str) :=
  match fuel with
  | O => None
  | S fuel' =>
      match scan_once fuel' s with
      | None => None
      | Some (v, r1) =>
          match skip_ws r1 with
          | 93 :: r2 => Some (PyList (rev (v :: acc)), r2)
          | 44 :: r2 => scan_items fuel' (v :: acc) (skip_ws r2)
          | _ => None
          end
      end
  end.

(** [json.loads(s)]: a byte order mark is refused, white space may
    surround the value, nothing else may follow it.

    This is the function on the texts the interpreter reads within its
    limits. Beyond them [json.loads] raises exceptions of its own, which
    depend on the settings of the interpreter and are not modelled:
    [RecursionError] on values nested deeper than its recursion limit
    allows, [ValueError] on an integer of more digits than [int] converts
    (4300 unless set otherwise). No theorem below says what [json.loads]
    raises on every text: where it matters, what it does of a line is a
    hypothesis. *)
Definition loads (s : str) : outcome pyval :=
  match s with
  | 65279 :: _ => Raise JSONDecodeError
  | _ =>
      match scan_once (2 * List.length s + 2) (skip_ws s) with
      | Some (v, r) =>
          match skip_ws r with
          | [] => Ok v
          | _ => Raise JSONDecodeError
          end
      | None => Raise JSONDecodeError
      end
  end.

End Json.
Import Json.

(* ================================================================== *)
(** * [hypnosis/core.py] *)
(* ================================================================== *)

Module core.

(** [PRIORITY_LEVELS.get(name)] *)
Definition PRIORITY_LEVELS (name : str) : option float :=
  if str_eqb name (txt "critical") then Some 0.99%float
  else if str_eqb name (txt "high") then Some 0.95%float
  else if str_eqb name (txt "medium") then Some 0.85%float
  else if str_eqb name (txt "low") then Some 0.75%float
  else None.

(** The dataclass, with the types of its annotations. *)
Record HypnotizedFact := mkFact {
  id : str;
  fact : str;
  priority : float;
  category : option str;
  metadata : dict;
  created_at : str
}.

Definition to_dict (self : HypnotizedFact) : pyval :=
  PyDict
    [ (txt "id", PyStr (id self));
      (txt "fact", PyStr (fact self));
      (txt "priority", PyFloat (priority self));
      (txt "category",
        match category self with Some c => PyStr c | None => PyNone end);
      (txt "metadata", PyDict (metadata self));
      (txt "created_at", PyStr (created_at self)) ].

(** [data[key]]: only a [dict] can be indexed by text. *)
Definition getitem (data : pyval) (key : str) : outcome pyval :=
  match data with
  | PyDict d =>
      match dict_get key d with
      | Some v => Ok v
      | None => Raise KeyError
      end
  | _ => Raise TypeError
  end.

(** [data.get(key, default)], reached only when [data] is a [dict]. *)
Definition get (data : pyval) (key : str) (default : pyval) : outcome pyval :=
  match data with
  | PyDict d =>
      match dict_get key d with
      | Some v => Ok v
      | None => Ok default
      end
  | _ => Raise TypeError
  end.

(** The annotations of the fields, as views of a value. *)
Definition as_str (v : pyval) : outcome str :=
  match v with PyStr s => Ok s | _ => Untyped end.
Definition as_float (v : pyval) : outcome float :=
  match v with PyFloat x => Ok x | _ => Untyped end.
Definition as_optional_str (v : pyval) : outcome (option str) :=
  match v with PyStr s => Ok (Some s) | PyNone => Ok None | _ => Untyped end.
Definition as_dict (v : pyval) : outcome dict :=
  match v with PyDict d => Ok d | _ => Untyped end.

(** [HypnotizedFact.from_dict(data)]; [now] is what
    [datetime.utcnow().isoformat() + "Z"] gives at the call. The arguments
    of [cls(...)] are evaluated in order, then the object is built. *)
Definition from_dict (now : str) (data : pyval) : outcome HypnotizedFact :=
  v_id <- getitem data (txt "id") ;;
  v_fact <- getitem data (txt "fact") ;;
  v_priority <- getitem data (txt "priority") ;;
  v_category <- get data (txt "category") PyNone ;;
  v_metadata <- get data (txt "metadata") (PyDict []) ;;
  v_created_at <- get data (txt "created_at") (PyStr now) ;;
  a_id <- as_str v_id ;;
  a_fact <- as_str v_fact ;;
  a_priority <- as_float v_priority ;;
  a_category <- as_optional_str v_category ;;
  a_metadata <- as_dict v_metadata ;;
  a_created_at <- as_str v_created_at ;;
  Ok (mkFact a_id a_fact a_priority a_category a_metadata a_created_at).

(** The clock: reading number [n] of
    [datetime.utcnow().isoformat() + "Z"] during a call. *)
Definition clock := nat -> str.

(** The abstract class [MemoryStore], over the state [Store] of a backend.
    [write] and [delete] give the state they leave. *)
Class MemoryStore (Store : Type) := {
  write : HypnotizedFact -> Store -> Store;
  read_all : clock -> Store -> outcome (list HypnotizedFact);
  delete : clock -> str -> Store -> outcome bool * Store
}.

(** The [priority] argument of [inject]: [Union[str, float]]. *)
Inductive priority_arg :=
| Tier (name : str)
| Number (x : float).

(** [facts.sort(key=lambda f: f.priority, reverse=True)].

    When no key is a NaN the keys are totally ordered and [list.sort] is
    the stable sort, greatest key first: facts of equal priority keep their
    order. [insert_by_priority] puts a fact before the facts of a sorted
    list that are not greater. *)
Fixpoint insert_by_priority (f : HypnotizedFact) (l : list HypnotizedFact)
    : list HypnotizedFact :=
  match l with
  | [] => [f]
  | g :: r =>
      if PrimFloat.ltb (priority f) (priority g)
      then g :: insert_by_priority f r
      else f :: l
  end.

(** When a key is a NaN, [<] on the keys is no order, and what the merge
    sort of CPython leaves depends on the runs it finds and on how it
    merges them. It is a rearrangement of the list, fixed by the list; this
    is all that is taken of it. *)
Record nan_sort := mkNanSort {
  sort_with_nan : list HypnotizedFact -> list HypnotizedFact;
  sort_with_nan_perm : forall l, Permutation (sort_with_nan l) l
}.

(** [key == key] for every key: none is a NaN. *)
Definition keys_ordered (l : list HypnotizedFact) : bool :=
  forallb (fun f => PrimFloat.eqb (priority f) (priority f)) l.

Definition sort_ordered (l : list HypnotizedFact) : list HypnotizedFact :=
  fold_right insert_by_priority [] l.

Definition sort_by_priority (list_sort : nan_sort) (l : list HypnotizedFact)
    : list HypnotizedFact :=
  if keys_ordered l then sort_ordered l else sort_with_nan list_sort l.

(** A [set] of text, as the list of its elements (each once). *)
Fixpoint set_add (s : str) (l : list str) : list str :=
  match l with
  | [] => [s]
  | t :: r => if str_eqb s t then l else t :: set_add s r
  end.

Definition set_of (l : list str) : list str :=
  fold_left (fun acc s => set_add s acc) l [].

(** [sorted(...)] of text. *)
Fixpoint insert_sorted (s : str) (l : list str) : list str :=
  match l with
  | [] => [s]
  | t :: r => if str_ltb t s then t :: insert_sorted s r else s :: l
  end.

Definition sorted (l : list str) : list str := fold_right insert_sorted [] l.

Section Hypnotizer.
Variable unicode_lower : str -> str.
Variable list_sort : nan_sort.
Context {Store : Type} {memory_store : MemoryStore Store}.

(** [Hypnotizer.__init__]: the instance holds the default priority (the
    backend is the class instance above, its state is passed along). *)
Record Hypnotizer := mkHypnotizer { default_priority : float }.

(** [inject]; [uuid4] is what [str(uuid.uuid4())] gives and [now] the
    time stamp of the new object. The result is the object and the state
    of the backend after [write]. *)
Definition inject (self : Hypnotizer) (uuid4 now : str)
    (fact : str) (priority : priority_arg) (category : option str)
    (metadata : option dict) (st : Store) : HypnotizedFact * Store :=
  let priority_value :=
    match priority with
    | Tier name =>
        match PRIORITY_LEVELS (lower unicode_lower name) with
        | Some x => x
        | None => default_priority self
        end
    | Number x => py_max 0 (py_min 1 x)
    end in
  let hypnotized :=
    mkFact uuid4 (strip fact) priority_value category
      (match metadata with Some (_ :: _ as d) => d | _ => [] end) now in
  (hypnotized, write hypnotized st).

(** [recall] *)
Definition recall (clk : clock) (query : option str)
    (category : option str) (min_priority : float) (st : Store)
    : outcome (list HypnotizedFact) :=
  facts <- read_all clk st ;;
  let facts :=
    match category with
    | Some c =>
        filter (fun f => match core.category f with
                         | Some c' => str_eqb c' c
                         | None => false
                         end) facts
    | None => facts
    end in
  let facts :=
    if PrimFloat.ltb 0 min_priority
    then filter (fun f => PrimFloat.leb min_priority (core.priority f)) facts
    else facts in
  let facts :=
    match query with
    | Some q =>
        let query_lower := lower unicode_lower q in
        filter (fun f => contains (lower unicode_lower (core.fact f))
                           query_lower) facts
    | None => facts
    end in
  Ok (sort_by_priority list_sort facts).

(** [forget] *)
Definition forget (clk : clock) (fact_id : str) (st : Store)
    : outcome bool * Store :=
  delete clk fact_id st.

(** [list_categories] *)
Definition list_categories (clk : clock) (st : Store) : outcome (list str) :=
  facts <- read_all clk st ;;
  let categories :=
    set_of (flat_map (fun f => match core.category f with
                               | Some c => [c]
                               | None => []
                               end) facts) in
  Ok (sorted categories).
End Hypnotizer.

End core.
Import core.

(* ================================================================== *)
(** * [hypnosis/stores.py] *)
(* ================================================================== *)

Module stores.

(** The file at [storage_path]: the text it holds, or nothing when it does
    not exist. The text is what [read_text] gives and [write] takes (the
    UTF-8 codec is a bijection on it, and the newline translation of text
    mode does not change what [splitlines] finds). A failure of the medium
    is not modelled. *)
Definition storage := option str.

(** [JSONLMemoryStore.__init__]: a missing file is created empty. *)
Definition init (st : storage) : storage :=
  match st with
  | None => Some []
  | Some _ => st
  end.

Definition content (st : storage) : str :=
  match st with
  | Some s => s
  | None => []
  end.

(** The line [write] and [delete] put down for a fact. *)
Definition line_of (f : HypnotizedFact) : str := dumps (to_dict f) ++ [10].

(** [write]: the file is opened for appending. The state is the one a
    call that returns leaves; on a line the codec refuses the call raises
    with nothing added (see [encodable] below), which is not followed
    here. *)
Definition write (f : HypnotizedFact) (st : storage) : storage :=
  Some (content st ++ line_of f).

Definition handled (e : exn) : bool :=
  match e with
  | JSONDecodeError | KeyError => true
  | _ => false
  end.

(** One turn of the loop of [read_all]: the fact the line adds to [facts],
    if any. A blank line is passed over; so is a line on which [json.loads]
    or [from_dict] raises one of the two exceptions of the [except] clause.
    Any other exception leaves the loop. *)
Definition read_line (now : str) (line : str) : outcome (option HypnotizedFact) :=
  match strip line with
  | [] => Ok None
  | _ =>
      try_except
        (data <- loads line ;;
         f <- from_dict now data ;;
         Ok (Some f))
        handled
        (Ok None)
  end.

(** The loop of [read_all] over the lines, [i] being the number of the
    line at hand. *)
Fixpoint read_lines (clk : clock) (i : nat) (lines : list str)
    : outcome (list HypnotizedFact) :=
  match lines with
  | [] => Ok []
  | line :: rest =>
      r <- read_line (clk i) line ;;
      facts <- read_lines clk (S i) rest ;;
      Ok (match r with Some f => f :: facts | None => facts end)
  end.

(** [read_all] *)
Definition read_all (clk : clock) (st : storage) : outcome (list HypnotizedFact) :=
  match st with
  | None => Ok []
  | Some text => read_lines clk 0 (splitlines text)
  end.

(** What the UTF-8 codec of the file refuses: a surrogate code point,
    which a Python [str] may hold (the JSON escape [\ud800] gives one). *)
Definition is_surrogate (c : Z) : bool := (55296 <=? c) && (c <=? 57343).

Definition encodable (s : str) : bool :=
  forallb (fun c => negb (is_surrogate c)) s.

(** The loop of [delete] over the facts kept, the file being opened anew
    (and so emptied); [written] is the text the file has been given so far.
    On a line the codec refuses, [f.write] raises [UnicodeEncodeError]: the
    [with] block closes the file, which holds the lines written before. *)
Fixpoint write_all (facts : list HypnotizedFact) (written : str)
    : outcome bool * storage :=
  match facts with
  | [] => (Ok true, Some written)
  | f :: rest =>
      if encodable (line_of f)
      then write_all rest (written ++ line_of f)
      else (Raise UnicodeEncodeError, Some written)
  end.

(** [delete]: the file is rewritten only when a fact goes away. *)
Definition delete (clk : clock) (fact_id : str) (st : storage)
    : outcome bool * storage :=
  match read_all clk st with
  | Ok facts =>
      let original_count := List.length facts in
      let facts := filter (fun f => negb (str_eqb (id f) fact_id)) facts in
      if Nat.eqb (List.length facts) original_count then (Ok false, st)
      else write_all facts []
  | Raise e => (Raise e, st)
  | Untyped => (Untyped, st)
  end.

#[export] Instance JSONLMemoryStore : MemoryStore storage := {
  core.write := write;
  core.read_all := read_all;
  core.delete := delete
}.

End stores.
Import stores.

(* ================================================================== *)
(** * Facts about text *)
(* ================================================================== *)

Lemma str_eqb_eq (a b : str) : str_eqb a b = true <-> a = b.
Proof.
  revert b; induction a as [|x a IH]; intros [|y b]; simpl;
    try (split; [discriminate | congruence]); [tauto|].
  rewrite andb_true_iff, Z.eqb_eq, IH. split.
  - intros [-> ->]; reflexivity.
  - intros H; injection H; auto.
Qed.

Lemma str_eqb_refl (a : str) : str_eqb a a = true.
Proof. apply str_eqb_eq; reflexivity. Qed.

Lemma str_eqb_neq (a b : str) : str_eqb a b = false <-> a <> b.
Proof.
  rewrite <- str_eqb_eq. destruct (str_eqb a b); split; congruence.
Qed.

Lemma str_ltb_irrefl (a : str) : str_ltb a a = false.
Proof.
  induction a as [|x a IH]; simpl; [reflexivity|].
  rewrite Z.ltb_irrefl, Z.eqb_refl, IH; reflexivity.
Qed.

Lemma str_ltb_trans (a b c : str) :
  str_ltb a b = true -> str_ltb b c = true -> str_ltb a c = true.
Proof.
  revert b c; induction a as [|x a IH]; intros [|y b] [|z c]; simpl;
    try discriminate; auto.
  rewrite !orb_true_iff, !andb_true_iff, !Z.ltb_lt, !Z.eqb_eq.
  intros [H1 | [H1 H1']] [H2 | [H2 H2']].
  - left; lia.
  - left; lia.
  - left; lia.
  - right; split; [lia | eauto].
Qed.

(** Two texts are equal or one is below the other. *)
Lemma str_ltb_total (a b : str) :
  str_ltb a b = false -> str_eqb a b = false -> str_ltb b a = true.
Proof.
  revert b; induction a as [|x a IH]; intros [|y b]; simpl;
    try discriminate; auto.
  rewrite !orb_false_iff, !andb_false_iff, orb_true_iff, andb_true_iff.
  rewrite !Z.ltb_ge, !Z.eqb_neq, Z.ltb_lt, Z.eqb_eq.
  intros [H1 H2] H3.
  destruct (Z.eq_dec x y) as [E | E].
  - right. split; [auto|]. apply IH.
    + destruct H2 as [H2 | H2]; [congruence | exact H2].
    + destruct H3 as [H3 | H3]; [congruence | exact H3].
  - left; lia.
Qed.

(** [name] is [tier] up to the case of its letters: every character is the
    one of [tier] or its upper-case form. *)
Definition casing_of (tier name : str) : Prop :=
  Forall2 (fun t c => c = t \/ c = t - 32) tier name.

Definition lower_letters (s : str) : Prop :=
  Forall (fun t => 97 <= t <= 122) s.

Lemma casing_lower (tier name : str) :
  lower_letters tier -> casing_of tier name ->
  is_ascii name = true /\ map ascii_lower name = tier.
Proof.
  unfold is_ascii.
  intros Hl Hc; induction Hc as [|t c tier name Htc Hc IH]; simpl.
  - split; reflexivity.
  - inversion Hl as [|? ? Ht Hl']; subst.
    destruct (IH Hl') as [Ha Hm]. rewrite Ha, Hm.
    unfold ascii_lower. split.
    + rewrite andb_true_r. apply Z.ltb_lt. lia.
    + f_equal.
      destruct Htc as [-> | ->].
      * replace ((65 <=? t) && (t <=? 90)) with false; [reflexivity|].
        symmetry; apply andb_false_iff; right; apply Z.leb_gt; lia.
      * replace ((65 <=? t - 32) && (t - 32 <=? 90)) with true; [lia|].
        symmetry; apply andb_true_iff; split; apply Z.leb_le; lia.
Qed.

Lemma lower_casing (tier name : str) :
  map ascii_lower name = tier -> casing_of tier name.
Proof.
  intros <-. induction name as [|c name IH]; simpl; constructor; auto.
  unfold ascii_lower. destruct ((65 <=? c) && (c <=? 90)); [right | left]; lia.
Qed.

(* ================================================================== *)
(** * Facts about floats *)
(* ================================================================== *)

Lemma SFcompare_Eq_inv (a b : spec_float) :
  SFcompare a b = Some Eq ->
  a = b \/ exists s s', a = S754_zero s /\ b = S754_zero s'.
Proof.
  destruct a as [s| [|] | |[|] m e], b as [s'| [|] | |[|] m' e']; simpl;
    try discriminate; try (left; reflexivity); try (right; eauto; fail);
    destruct (Z.compare_spec e e') as [E | E | E]; try discriminate;
    rewrite Pos.compare_cont_spec; simpl;
    destruct (Pos.compare_spec m m') as [E' | E' | E']; simpl;
    try discriminate; subst; left; reflexivity.
Qed.

Lemma ltb_leb (x y : float) :
  PrimFloat.ltb x y = true -> PrimFloat.leb x y = true.
Proof.
  rewrite ltb_spec, leb_spec. unfold SFltb, SFleb.
  destruct (SFcompare (Prim2SF x) (Prim2SF y)) as [[| |]|];
    congruence.
Qed.

Lemma leb_not_ltb (x y : float) :
  PrimFloat.leb x y = true -> PrimFloat.ltb y x = false.
Proof.
  rewrite ltb_spec, leb_spec. unfold SFltb, SFleb.
  destruct (Prim2SF x) as [s| [|] | |[|] m e],
           (Prim2SF y) as [s'| [|] | |[|] m' e']; simpl;
    try discriminate; try reflexivity;
    rewrite (Z.compare_antisym e e'), !Pos.compare_cont_spec,
      (Pos.compare_antisym m m'); simpl;
    destruct (e ?= e'); simpl; try discriminate; try reflexivity;
    destruct (m ?= m')%positive; simpl; try discriminate; reflexivity.
Qed.

(** [min(1.0, x)], then [max(0.0, .)]. *)
Definition clamp (x : float) : float := py_max 0 (py_min 1 x).

Lemma clamp_range (x : float) :
  PrimFloat.leb 0 (clamp x) = true /\ PrimFloat.leb (clamp x) 1 = true.
Proof.
  unfold clamp, py_min, py_max.
  destruct (PrimFloat.ltb x 1) eqn:H1.
  - destruct (PrimFloat.ltb 0 x) eqn:H0.
    + split; apply ltb_leb; assumption.
    + split; reflexivity.
  - split; reflexivity.
Qed.

Lemma SFleb_zero_SFltb_pos (a : spec_float) (m : positive) (e : Z) :
  SFleb a (S754_zero false) = true ->
  SFltb a (S754_finite false m e) = true.
Proof.
  unfold SFleb, SFltb.
  destruct a as [s| [|] | |[|] m' e']; simpl; try discriminate; reflexivity.
Qed.

Lemma leb_zero_ltb_one (x : float) :
  PrimFloat.leb x 0 = true -> PrimFloat.ltb x 1 = true.
Proof.
  rewrite leb_spec, ltb_spec.
  replace (Prim2SF 0) with (S754_zero false) by reflexivity.
  replace (Prim2SF 1) with (S754_finite false 4503599627370496 (-52))
    by reflexivity.
  apply SFleb_zero_SFltb_pos.
Qed.

Lemma clamp_below (x : float) :
  PrimFloat.leb x 0 = true -> clamp x = 0%float.
Proof.
  intros H. unfold clamp, py_min, py_max.
  rewrite (leb_zero_ltb_one _ H), (leb_not_ltb _ _ H). reflexivity.
Qed.

Lemma clamp_above (x : float) :
  PrimFloat.ltb 1 x = true -> clamp x = 1%float.
Proof.
  intros H. unfold clamp, py_min, py_max.
  rewrite (leb_not_ltb _ _ (ltb_leb _ _ H)). reflexivity.
Qed.

Lemma clamp_nan (x : float) :
  PrimFloat.eqb x x = false -> clamp x = 1%float.
Proof.
  intros H. unfold clamp, py_min, py_max.
  replace (PrimFloat.ltb x 1) with false; [reflexivity|].
  symmetry. rewrite ltb_spec. rewrite eqb_spec in H.
  unfold SFltb. unfold SFeqb in H.
  destruct (Prim2SF x) as [s| [|] | |[|] m e]; simpl in *; try discriminate;
    try reflexivity;
    rewrite Z.compare_refl, Pos.compare_cont_spec, Pos.compare_refl in H;
    discriminate.
Qed.

Lemma clamp_inside (x : float) :
  PrimFloat.ltb 0 x = true -> PrimFloat.leb x 1 = true -> clamp x = x.
Proof.
  intros H0 H1. unfold clamp, py_min, py_max.
  destruct (PrimFloat.ltb x 1) eqn:H.
  - rewrite H0. reflexivity.
  - replace (PrimFloat.ltb 0 1) with true by reflexivity.
    apply Prim2SF_inj.
    rewrite leb_spec in H1. rewrite ltb_spec in H.
    unfold SFleb in H1. unfold SFltb in H.
    destruct (SFcompare (Prim2SF x) (Prim2SF 1)) as [[| |]|] eqn:C;
      try discriminate.
    destruct (SFcompare_Eq_inv _ _ C) as [E | (s & s' & _ & E)].
    + symmetry; exact E.
    + vm_compute in E. discriminate.
Qed.

(* ================================================================== *)
(** * The priority of an injected fact *)
(* ================================================================== *)

(** The tiers and their values, as the specification lists them. *)
Definition tiers : list (str * float) :=
  [ (txt "critical", 0.99%float); (txt "high", 0.95%float);
    (txt "medium", 0.85%float); (txt "low", 0.75%float) ].

Lemma tiers_lookup (tier : str) (value : float) :
  In (tier, value) tiers ->
  lower_letters tier /\ PRIORITY_LEVELS tier = Some value.
Proof.
  unfold tiers, lower_letters. simpl.
  intros [H | [H | [H | [H | []]]]]; injection H as <- <-;
    (split; [repeat constructor; lia | reflexivity]).
Qed.

Lemma PRIORITY_LEVELS_tiers (name : str) (value : float) :
  PRIORITY_LEVELS name = Some value -> In (name, value) tiers.
Proof.
  unfold PRIORITY_LEVELS, tiers.
  destruct (str_eqb name (txt "critical")) eqn:E1;
    [apply str_eqb_eq in E1; intros [= <-]; subst; simpl; auto|].
  destruct (str_eqb name (txt "high")) eqn:E2;
    [apply str_eqb_eq in E2; intros [= <-]; subst; simpl; auto|].
  destruct (str_eqb name (txt "medium")) eqn:E3;
    [apply str_eqb_eq in E3; intros [= <-]; subst; simpl; auto|].
  destruct (str_eqb name (txt "low")) eqn:E4;
    [apply str_eqb_eq in E4; intros [= <-]; subst; simpl; auto 6|].
  discriminate.
Qed.

(** C2: a tier name in any letter casing gives the priority of its tier
    (critical 0.99, high 0.95, medium 0.85, low 0.75); a name whose
    lower-case form is not in the table gives the default priority of the
    instance, and so does every ASCII name that is no casing of a tier.
    [inject] is a total function: no name makes it fail. *)
Theorem inject_tier_priority :
  forall (unicode_lower : str -> str) (Store : Type) (ms : MemoryStore Store)
         (self : Hypnotizer) (uuid4 now text name : str)
         (cat : option str) (meta : option dict) (st : Store),
    (forall tier value,
        In (tier, value) tiers -> casing_of tier name ->
        priority (fst (inject unicode_lower self uuid4 now text (Tier name)
                         cat meta st)) = value)
    /\ (PRIORITY_LEVELS (lower unicode_lower name) = None ->
        priority (fst (inject unicode_lower self uuid4 now text (Tier name)
                         cat meta st)) = default_priority self)
    /\ (is_ascii name = true ->
        (forall tier value, In (tier, value) tiers -> ~ casing_of tier name) ->
        priority (fst (inject unicode_lower self uuid4 now text (Tier name)
                         cat meta st)) = default_priority self).
Proof.
  intros ul Store ms self uuid4 now text name cat meta st. simpl.
  split; [|split].
  - intros tier value Hin Hc.
    destruct (tiers_lookup _ _ Hin) as [Hl Hp].
    destruct (casing_lower _ _ Hl Hc) as [Ha Hm].
    unfold lower. rewrite Ha, Hm, Hp. reflexivity.
  - intros ->. reflexivity.
  - intros Ha Hno. unfold lower. rewrite Ha.
    destruct (PRIORITY_LEVELS (map ascii_lower name)) as [v|] eqn:E;
      [|reflexivity].
    exfalso. apply (Hno _ _ (PRIORITY_LEVELS_tiers _ _ E)).
    apply lower_casing. reflexivity.
Qed.

(** C2 at work: "HiGh" is the tier high, "urgent" is no tier. *)
Lemma inject_tier_priority_witness :
  priority (fst (inject (fun s => s) (mkHypnotizer 0.5) (txt "id") (txt "now")
                   (txt "fact") (Tier (txt "HiGh")) None None (init None)))
    = 0.95%float
  /\ priority (fst (inject (fun s => s) (mkHypnotizer 0.5) (txt "id")
                      (txt "now") (txt "fact") (Tier (txt "urgent")) None None
                      (init None)))
    = 0.5%float.
Proof.
  split.
  - apply (proj1 (inject_tier_priority (fun s => s) storage JSONLMemoryStore
                    (mkHypnotizer 0.5) (txt "id") (txt "now") (txt "fact")
                    (txt "HiGh") None None (init None))
             (txt "high") 0.95%float).
    + simpl; auto.
    + repeat constructor; simpl; lia.
  - apply (proj1 (proj2 (inject_tier_priority (fun s => s) storage
                           JSONLMemoryStore (mkHypnotizer 0.5) (txt "id")
                           (txt "now") (txt "fact") (txt "urgent") None None
                           (init None)))).
    reflexivity.
Defined.

(** C3: a numeric priority [x] gives [max(0.0, min(1.0, x))], which is [x]
    itself inside the unit interval, 0.0 at and below zero, 1.0 above one
    (and 1.0 for a NaN, which [min] never picks). *)
Theorem inject_number_priority :
  forall (unicode_lower : str -> str) (Store : Type) (ms : MemoryStore Store)
         (self : Hypnotizer) (uuid4 now text : str) (x : float)
         (cat : option str) (meta : option dict) (st : Store),
    let p := priority (fst (inject unicode_lower self uuid4 now text
                              (Number x) cat meta st)) in
    p = py_max 0 (py_min 1 x)
    /\ (PrimFloat.leb x 0 = true -> p = 0%float)
    /\ (PrimFloat.ltb 0 x = true -> PrimFloat.leb x 1 = true -> p = x)
    /\ (PrimFloat.ltb 1 x = true -> p = 1%float)
    /\ (PrimFloat.eqb x x = false -> p = 1%float).
Proof.
  intros ul Store ms self uuid4 now text x cat meta st. simpl.
  split; [reflexivity|].
  split; [apply clamp_below|].
  split; [apply clamp_inside|].
  split; [apply clamp_above | apply clamp_nan].
Qed.

(** C3 at work on 0.3, 7.5 and -2. *)
Lemma inject_number_priority_witness :
  priority (fst (inject (fun s => s) (mkHypnotizer 0.95) (txt "id") (txt "now")
                   (txt "fact") (Number 0.3) None None (init None)))
    = 0.3%float
  /\ priority (fst (inject (fun s => s) (mkHypnotizer 0.95) (txt "id")
                      (txt "now") (txt "fact") (Number 7.5) None None
                      (init None)))
    = 1%float
  /\ priority (fst (inject (fun s => s) (mkHypnotizer 0.95) (txt "id")
                      (txt "now") (txt "fact") (Number (-2)) None None
                      (init None)))
    = 0%float.
Proof.
  split; [|split].
  - apply (inject_number_priority (fun s => s) storage JSONLMemoryStore
             (mkHypnotizer 0.95) (txt "id") (txt "now") (txt "fact")
             0.3%float None None (init None)); reflexivity.
  - apply (proj1 (proj2 (proj2 (proj2
             (inject_number_priority (fun s => s) storage JSONLMemoryStore
                (mkHypnotizer 0.95) (txt "id") (txt "now") (txt "fact")
                7.5%float None None (init None)))))); reflexivity.
  - apply (proj1 (proj2
             (inject_number_priority (fun s => s) storage JSONLMemoryStore
                (mkHypnotizer 0.95) (txt "id") (txt "now") (txt "fact")
                (-2)%float None None (init None)))); reflexivity.
Defined.

(** C7, as the claim has it, fails: an instance built with the default
    priority 5.0 gives an unknown tier name the priority 5.0. *)
Lemma inject_priority_above_one :
  PrimFloat.leb
    (priority (fst (inject (fun s => s) (mkHypnotizer 5) (txt "id") (txt "now")
                      (txt "fact") (Tier (txt "urgent")) None None
                      (init None))))
    1 = false.
Proof. reflexivity. Qed.

(** C7, amended: when the default priority of the instance lies in
    [0.0, 1.0], as the docstring of [__init__] asks, every priority
    argument, tier name or number, gives a priority in [0.0, 1.0]. *)
Theorem inject_priority_in_unit_interval :
  forall (unicode_lower : str -> str) (Store : Type) (ms : MemoryStore Store)
         (self : Hypnotizer) (uuid4 now text : str) (p : priority_arg)
         (cat : option str) (meta : option dict) (st : Store),
    PrimFloat.leb 0 (default_priority self) = true ->
    PrimFloat.leb (default_priority self) 1 = true ->
    PrimFloat.leb 0
      (priority (fst (inject unicode_lower self uuid4 now text p cat meta st)))
      = true
    /\ PrimFloat.leb
         (priority (fst (inject unicode_lower self uuid4 now text p cat meta st)))
         1 = true.
Proof.
  intros ul Store ms self uuid4 now text p cat meta st H0 H1. simpl.
  destruct p as [name | x].
  - destruct (PRIORITY_LEVELS (lower ul name)) as [v|] eqn:E.
    + apply PRIORITY_LEVELS_tiers in E. simpl in E.
      destruct E as [E | [E | [E | [E | []]]]]; injection E as _ <-;
        split; reflexivity.
    + split; assumption.
  - apply clamp_range.
Qed.

Lemma inject_priority_in_unit_interval_witness :
  PrimFloat.leb 0
    (priority (fst (inject (fun s => s) (mkHypnotizer 0.95) (txt "id")
                      (txt "now") (txt "fact") (Tier (txt "urgent")) None None
                      (init None))))
    = true
  /\ PrimFloat.leb
       (priority (fst (inject (fun s => s) (mkHypnotizer 0.95) (txt "id")
                         (txt "now") (txt "fact") (Tier (txt "urgent")) None
                         None (init None))))
       1 = true.
Proof.
  apply (inject_priority_in_unit_interval (fun s => s) storage
           JSONLMemoryStore (mkHypnotizer 0.95) (txt "id") (txt "now")
           (txt "fact") (Tier (txt "urgent")) None None (init None));
    reflexivity.
Defined.

(* ================================================================== *)
(** * The order of floats *)
(* ================================================================== *)

(** Case analysis on the comparisons of exponents and mantissas that
    [SFcompare] makes. *)
Ltac sf_cases :=
  simpl; rewrite ?Pos.compare_cont_spec; simpl;
  repeat match goal with
    | |- context [(?x ?= ?y)%Z] => destruct (Z.compare_spec x y); simpl
    | |- context [(?x ?= ?y)%positive] =>
        destruct (Pos.compare_spec x y); simpl
    end;
  try discriminate; try reflexivity; try (intros; exfalso; lia).

Lemma SFleb_trans (a b c : spec_float) :
  SFleb a b = true -> SFleb b c = true -> SFleb a c = true.
Proof.
  unfold SFleb.
  destruct a as [sa| [|] | |[|] ma ea]; destruct b as [sb| [|] | |[|] mb eb];
    simpl; try discriminate;
    destruct c as [sc| [|] | |[|] mc ec]; simpl; try discriminate;
    try reflexivity; sf_cases.
Qed.




Lemma leb_trans (x y z : float) :
  PrimFloat.leb x y = true -> PrimFloat.leb y z = true ->
  PrimFloat.leb x z = true.
Proof. rewrite !leb_spec. apply SFleb_trans. Qed.



(* ================================================================== *)
(** * [recall]: selection and order *)
(* ================================================================== *)

(** The three tests of [recall], each passing everything when its argument
    is left out. *)
Definition matches_category (cat : option str) (f : HypnotizedFact) : bool :=
  match cat with
  | Some c =>
      match category f with
      | Some c' => str_eqb c' c
      | None => false
      end
  | None => true
  end.

Definition matches_priority (min_priority : float) (f : HypnotizedFact) : bool :=
  if PrimFloat.ltb 0 min_priority
  then PrimFloat.leb min_priority (priority f)
  else true.

Definition matches_query (unicode_lower : str -> str) (query : option str)
    (f : HypnotizedFact) : bool :=
  match query with
  | Some q => contains (lower unicode_lower (fact f)) (lower unicode_lower q)
  | None => true
  end.

(** The facts [recall] keeps, in the order of the snapshot: the category
    test first, then the priority test, then the query test. *)
Definition selected (unicode_lower : str -> str) (query cat : option str)
    (min_priority : float) (snapshot : list HypnotizedFact)
    : list HypnotizedFact :=
  filter (matches_query unicode_lower query)
    (filter (matches_priority min_priority)
       (filter (matches_category cat) snapshot)).




Lemma filter_all {A : Type} (l : list A) : filter (fun _ => true) l = l.
Proof. induction l as [|x l IH]; simpl; congruence. Qed.

Lemma recall_selected
    (unicode_lower : str -> str) (list_sort : nan_sort)
    (Store : Type) (ms : MemoryStore Store)
    (clk : clock) (query cat : option str) (min_priority : float) (st : Store)
    (snapshot : list HypnotizedFact) :
  core.read_all clk st = Ok snapshot ->
  recall unicode_lower list_sort clk query cat min_priority st
  = Ok (sort_by_priority list_sort
          (selected unicode_lower query cat min_priority snapshot)).
Proof.
  intros H. unfold recall, selected. rewrite H. simpl. do 2 f_equal.
  assert (Hc : forall l,
             match cat with
             | Some c =>
                 filter (fun f => match category f with
                                  | Some c' => str_eqb c' c
                                  | None => false
                                  end) l
             | None => l
             end = filter (matches_category cat) l).
  { intros l. destruct cat; [reflexivity | symmetry; apply filter_all]. }
  assert (Hp : forall l,
             (if PrimFloat.ltb 0 min_priority
              then filter (fun f => PrimFloat.leb min_priority (priority f)) l
              else l) = filter (matches_priority min_priority) l).
  { intros l. unfold matches_priority.
    destruct (PrimFloat.ltb 0 min_priority);
      [reflexivity | symmetry; apply filter_all]. }
  rewrite Hc, Hp.
  destruct query; [reflexivity | symmetry; apply filter_all].
Qed.

Lemma insert_by_priority_perm (f : HypnotizedFact) (l : list HypnotizedFact) :
  Permutation (insert_by_priority f l) (f :: l).
Proof.
  induction l as [|g l IH]; simpl; [apply Permutation_refl|].
  destruct (PrimFloat.ltb (priority f) (priority g)).
  - eapply perm_trans; [apply perm_skip, IH | apply perm_swap].
  - apply Permutation_refl.
Qed.

Lemma sort_ordered_perm (l : list HypnotizedFact) :
  Permutation (sort_ordered l) l.
Proof.
  induction l as [|f l IH]; simpl; [constructor|].
  eapply perm_trans; [apply insert_by_priority_perm|].
  apply perm_skip, IH.
Qed.


(** Whatever the keys, the sort rearranges the list. *)
Lemma sort_by_priority_perm (list_sort : nan_sort) (l : list HypnotizedFact) :
  Permutation (sort_by_priority list_sort l) l.
Proof.
  unfold sort_by_priority. destruct (keys_ordered l).
  - apply sort_ordered_perm.
  - apply sort_with_nan_perm.
Qed.






Lemma Forall_filter {A : Type} (P : A -> Prop) (f : A -> bool) (l : list A) :
  Forall P l -> Forall P (filter f l).
Proof.
  induction 1 as [|x l Hx Hl IH]; simpl; [constructor|].
  destruct (f x); [constructor|]; assumption.
Qed.


(** Three facts for the examples: priorities 0.99, 0.85, 0.75 and
    categories a, a, b, as in the specification; the first has the empty
    category in [example_blank]. *)
Definition example_fact (n : string) (p : float) (c : option str) : HypnotizedFact :=
  mkFact (txt n) (txt "remember " ++ txt n) p c [] (txt "2024-01-01T00:00:00Z").

Definition example_facts : list HypnotizedFact :=
  [ example_fact "one" 0.85 (Some (txt "a"));
    example_fact "two" 0.99 (Some (txt "a"));
    example_fact "three" 0.75 (Some (txt "b")) ].

Definition example_store : storage :=
  fold_left (fun st f => stores.write f st) example_facts (init None).

Definition example_clock : clock := fun _ => txt "2024-06-01T00:00:00Z".

Lemma example_store_read :
  core.read_all example_clock example_store = Ok example_facts.
Proof. vm_compute. reflexivity. Qed.

(** A [list.sort] that leaves a list with a NaN key as it is: one of the
    rearrangements, for the examples. *)
Definition example_sort : nan_sort :=
  mkNanSort (fun l => l) (fun l => Permutation_refl l).


(* ================================================================== *)
(** * [list_categories] *)
(* ================================================================== *)

Definition str_lt (a b : str) : Prop := str_ltb a b = true.

(** The categories of the facts that have one, in the order of the
    facts. *)
Definition categories_of (facts : list HypnotizedFact) : list str :=
  flat_map (fun f => match category f with Some c => [c] | None => [] end)
    facts.

Lemma categories_of_In (c : str) (facts : list HypnotizedFact) :
  In c (categories_of facts) <->
  exists f, In f facts /\ category f = Some c.
Proof.
  unfold categories_of. rewrite in_flat_map. split.
  - intros (f & Hf & Hc). exists f. split; [assumption|].
    destruct (category f) as [c'|]; simpl in Hc; [|contradiction].
    destruct Hc as [-> | []]. reflexivity.
  - intros (f & Hf & Hc). exists f. split; [assumption|].
    rewrite Hc. simpl. auto.
Qed.

Lemma set_add_In (c s : str) (l : list str) :
  In c (set_add s l) <-> c = s \/ In c l.
Proof.
  induction l as [|t l IH]; simpl; [intuition congruence|].
  destruct (str_eqb s t) eqn:E; simpl.
  - apply str_eqb_eq in E. subst. intuition congruence.
  - rewrite IH. intuition congruence.
Qed.

Lemma set_add_NoDup (s : str) (l : list str) :
  NoDup l -> NoDup (set_add s l).
Proof.
  induction 1 as [|t l Ht Hl IH]; simpl.
  - repeat constructor. intros [].
  - destruct (str_eqb s t) eqn:E; [constructor; assumption|].
    constructor; [|assumption].
    rewrite set_add_In. intros [-> | H]; [|contradiction].
    rewrite str_eqb_refl in E. discriminate.
Qed.

Lemma set_of_spec (l acc : list str) :
  NoDup acc ->
  NoDup (fold_left (fun acc s => set_add s acc) l acc)
  /\ forall c, In c (fold_left (fun acc s => set_add s acc) l acc)
               <-> In c l \/ In c acc.
Proof.
  revert acc; induction l as [|s l IH]; intros acc Hacc; simpl.
  - split; [assumption | intuition].
  - destruct (IH (set_add s acc) (set_add_NoDup s acc Hacc)) as [Hn Hi].
    split; [assumption|].
    intros c. rewrite Hi, set_add_In. intuition congruence.
Qed.

Lemma insert_sorted_In (c s : str) (l : list str) :
  In c (insert_sorted s l) <-> c = s \/ In c l.
Proof.
  induction l as [|t l IH]; simpl; [intuition congruence|].
  destruct (str_ltb t s); simpl; [rewrite IH|]; intuition congruence.
Qed.

Lemma insert_sorted_sorted (s : str) (l : list str) :
  ~ In s l -> StronglySorted str_lt l ->
  StronglySorted str_lt (insert_sorted s l).
Proof.
  intros Hs Hl. induction Hl as [|t l Hl IH Ht]; simpl.
  - repeat constructor.
  - simpl in Hs.
    destruct (str_ltb t s) eqn:E.
    + constructor; [apply IH; tauto|].
      apply Forall_forall. intros c Hc. apply insert_sorted_In in Hc.
      destruct Hc as [-> | Hc]; [exact E|].
      rewrite Forall_forall in Ht. apply Ht; assumption.
    + assert (Hst : str_lt s t).
      { apply str_ltb_total; [assumption|].
        apply str_eqb_neq. intros ->. tauto. }
      constructor; [constructor; assumption|].
      constructor; [assumption|].
      eapply Forall_impl; [|exact Ht].
      intros c Hc. unfold str_lt in *. eapply str_ltb_trans; eassumption.
Qed.

Lemma sorted_spec (l : list str) :
  NoDup l ->
  StronglySorted str_lt (sorted l) /\ forall c, In c (sorted l) <-> In c l.
Proof.
  induction 1 as [|s l Hs Hl [IH1 IH2]]; simpl.
  - split; [constructor | tauto].
  - split.
    + apply insert_sorted_sorted; [rewrite IH2|]; assumption.
    + intros c. rewrite insert_sorted_In, IH2. intuition congruence.
Qed.

Lemma StronglySorted_str_lt_NoDup (l : list str) :
  StronglySorted str_lt l -> NoDup l.
Proof.
  induction 1 as [|s l Hl IH Hs]; constructor; [|assumption].
  intros Hin. rewrite Forall_forall in Hs. specialize (Hs s Hin).
  unfold str_lt in Hs. rewrite str_ltb_irrefl in Hs. discriminate.
Qed.

Lemma list_categories_sorted_set
    (Store : Type) (ms : MemoryStore Store) (clk : clock) (st : Store) (snapshot : list HypnotizedFact) :
  core.read_all clk st = Ok snapshot ->
  list_categories clk st = Ok (sorted (set_of (categories_of snapshot))).
Proof. intros H. unfold list_categories. rewrite H. reflexivity. Qed.

Lemma listed_categories_In (snapshot : list HypnotizedFact) (c : str) :
  In c (sorted (set_of (categories_of snapshot)))
  <-> exists f, In f snapshot /\ category f = Some c.
Proof.
  destruct (set_of_spec (categories_of snapshot) [] (NoDup_nil _)) as [Hn Hi].
  destruct (sorted_spec _ Hn) as [_ Hm].
  unfold set_of in *. rewrite Hm, Hi, categories_of_In. simpl. tauto.
Qed.

(** C8: on the snapshot the backend returns, [list_categories] returns
    the categories of the facts that have one (a fact without category
    adds nothing), each once, in strictly ascending lexicographic order. *)
Theorem list_categories_distinct_sorted :
  forall (Store : Type) (ms : MemoryStore Store) (clk : clock) (st : Store)
         (snapshot : list HypnotizedFact),
    core.read_all clk st = Ok snapshot ->
    exists cats,
      list_categories clk st = Ok cats
      /\ StronglySorted str_lt cats
      /\ NoDup cats
      /\ forall c,
           In c cats <-> exists f, In f snapshot /\ category f = Some c.
Proof.
  intros Store ms clk st snapshot H.
  exists (sorted (set_of (categories_of snapshot))).
  split; [apply list_categories_sorted_set; assumption|].
  destruct (set_of_spec (categories_of snapshot) [] (NoDup_nil _)) as [Hn Hi].
  destruct (sorted_spec _ Hn) as [Hs Hm].
  split; [exact Hs|].
  split; [apply StronglySorted_str_lt_NoDup; exact Hs|].
  intros c. unfold set_of in *. rewrite Hm, Hi, categories_of_In. simpl. tauto.
Qed.

Lemma list_categories_distinct_sorted_witness :
  core.read_all example_clock example_store = Ok example_facts
  /\ exists cats,
       list_categories example_clock example_store = Ok cats
       /\ StronglySorted str_lt cats
       /\ NoDup cats
       /\ forall c,
            In c cats <->
            exists f, In f example_facts /\ category f = Some c.
Proof.
  split; [exact example_store_read|].
  apply (list_categories_distinct_sorted storage JSONLMemoryStore
           example_clock example_store example_facts).
  exact example_store_read.
Defined.

(* ================================================================== *)
(** * The empty category *)
(* ================================================================== *)

Lemma selected_In (unicode_lower : str -> str) (query cat : option str)
    (min_priority : float) (snapshot : list HypnotizedFact)
    (f : HypnotizedFact) :
  In f (selected unicode_lower query cat min_priority snapshot) <->
  In f snapshot /\ matches_category cat f = true
  /\ matches_priority min_priority f = true
  /\ matches_query unicode_lower query f = true.
Proof. unfold selected. rewrite !filter_In. tauto. Qed.

Lemma matches_empty_category (f : HypnotizedFact) :
  matches_category (Some []) f = true <-> category f = Some [].
Proof.
  unfold matches_category. destruct (category f) as [c|].
  - rewrite str_eqb_eq. split; [intros ->; reflexivity|].
    intros H; injection H; auto.
  - split; discriminate.
Qed.

(** C10: the empty text is a category like any other. A fact injected
    with it has it as its category; [recall] with it returns exactly the
    facts of the snapshot that have it (and pass the other two tests);
    [list_categories] lists it as soon as a fact of the snapshot has it. *)
Theorem empty_category_is_a_category :
  forall (unicode_lower : str -> str) (list_sort : nan_sort)
         (Store : Type) (ms : MemoryStore Store)
         (self : Hypnotizer) (uuid4 now text : str) (p : priority_arg)
         (meta : option dict) (clk : clock) (query : option str)
         (min_priority : float) (st : Store) (snapshot : list HypnotizedFact),
    category (fst (inject unicode_lower self uuid4 now text p (Some []) meta st))
    = Some []
    /\ (core.read_all clk st = Ok snapshot ->
        (exists result,
            recall unicode_lower list_sort clk query (Some []) min_priority st = Ok result
            /\ forall f,
                 In f result <->
                 In f snapshot /\ category f = Some []
                 /\ matches_priority min_priority f = true
                 /\ matches_query unicode_lower query f = true)
        /\ (exists cats,
               list_categories clk st = Ok cats
               /\ ((exists f, In f snapshot /\ category f = Some []) ->
                   In [] cats))).
Proof.
  intros ul ls Store ms self uuid4 now text p meta clk query min_priority st
    snapshot.
  split; [reflexivity|]. intros H. split.
  - exists (sort_by_priority ls (selected ul query (Some []) min_priority snapshot)).
    split; [apply recall_selected; assumption|].
    intros f. rewrite <- matches_empty_category, <- selected_In.
    split; apply Permutation_in;
      [|apply Permutation_sym]; apply sort_by_priority_perm.
  - exists (sorted (set_of (categories_of snapshot))).
    split; [apply list_categories_sorted_set; assumption|].
    intros Hf. apply listed_categories_In. assumption.
Qed.

Definition example_blank : list HypnotizedFact :=
  [ example_fact "one" 0.85 (Some []);
    example_fact "two" 0.99 (Some (txt "a"));
    example_fact "three" 0.75 None ].

Definition example_blank_store : storage :=
  fold_left (fun st f => stores.write f st) example_blank (init None).

Lemma example_blank_store_read :
  core.read_all example_clock example_blank_store = Ok example_blank.
Proof. vm_compute. reflexivity. Qed.

Lemma empty_category_is_a_category_witness :
  core.read_all example_clock example_blank_store = Ok example_blank
  /\ (exists result,
         recall (fun s => s) example_sort example_clock None (Some []) 0 example_blank_store
         = Ok result
         /\ forall f,
              In f result <->
              In f example_blank /\ category f = Some []
              /\ matches_priority 0 f = true
              /\ matches_query (fun s => s) None f = true)
  /\ (exists cats,
         list_categories example_clock example_blank_store = Ok cats
         /\ ((exists f, In f example_blank /\ category f = Some []) ->
             In [] cats)).
Proof.
  split; [exact example_blank_store_read|].
  apply (empty_category_is_a_category (fun s => s) example_sort storage JSONLMemoryStore
           (mkHypnotizer 0.95) (txt "id") (txt "now") (txt "fact")
           (Tier (txt "high")) None example_clock None 0%float
           example_blank_store example_blank).
  exact example_blank_store_read.
Defined.

(* ================================================================== *)
(** * What [write] appends *)
(* ================================================================== *)

(** Induction on values, through the lists and dictionaries they hold. *)
Definition pyval_ind (P : pyval -> Prop)
    (HNone : P PyNone) (HBool : forall b, P (PyBool b))
    (HInt : forall z, P (PyInt z)) (HFloat : forall x, P (PyFloat x))
    (HStr : forall s, P (PyStr s))
    (HList : forall l, Forall P l -> P (PyList l))
    (HDict : forall d, Forall (fun kv => P (snd kv)) d -> P (PyDict d))
    : forall v, P v :=
  fix go (v : pyval) : P v :=
    match v with
    | PyNone => HNone
    | PyBool b => HBool b
    | PyInt z => HInt z
    | PyFloat x => HFloat x
    | PyStr s => HStr s
    | PyList l =>
        HList l ((fix all (l : list pyval) : Forall P l :=
                    match l with
                    | [] => Forall_nil _
                    | x :: r => Forall_cons x (go x) (all r)
                    end) l)
    | PyDict d =>
        HDict d ((fix all (d : list (str * pyval))
                    : Forall (fun kv => P (snd kv)) d :=
                    match d with
                    | [] => Forall_nil _
                    | kv :: r => Forall_cons kv (go (snd kv)) (all r)
                    end) d)
    end.

(** A text without line feed. *)
Definition no_lf (s : str) : Prop := Forall (fun c => c <> 10) s.

Definition is_decimal_digit (d : Z) : Prop := 0 <= d <= 9.

Lemma no_lf_app (a b : str) : no_lf a -> no_lf b -> no_lf (a ++ b).
Proof. intros Ha Hb. apply Forall_app. split; assumption. Qed.

Lemma no_lf_cons (c : Z) (s : str) : c <> 10 -> no_lf s -> no_lf (c :: s).
Proof. intros Hc Hs. constructor; assumption. Qed.

Lemma no_lf_digits (ds : list Z) :
  Forall is_decimal_digit ds -> no_lf (map digit_char ds).
Proof.
  induction 1 as [|d ds Hd Hds IH]; simpl; constructor; [|assumption].
  unfold digit_char, is_decimal_digit in *. lia.
Qed.

Lemma uint_digits_decimal (u : Decimal.uint) :
  Forall is_decimal_digit (uint_digits u).
Proof.
  induction u; simpl; constructor; try assumption;
    unfold is_decimal_digit; lia.
Qed.

Lemma digits_of_decimal (n : Z) : Forall is_decimal_digit (digits_of n).
Proof.
  destruct n; simpl; try apply uint_digits_decimal;
    repeat constructor; unfold is_decimal_digit; lia.
Qed.

Lemma zeros_decimal (n : Z) : Forall is_decimal_digit (zeros n).
Proof.
  unfold zeros. induction (Z.to_nat n); simpl; constructor; try assumption.
  unfold is_decimal_digit; lia.
Qed.

Lemma drop_zeros_decimal (ds : list Z) :
  Forall is_decimal_digit ds -> Forall is_decimal_digit (drop_zeros ds).
Proof.
  induction 1 as [|d ds Hd Hds IH]; simpl; [constructor|].
  destruct d; [assumption | constructor; assumption..].
Qed.

Lemma no_lf_int_repr (n : Z) : no_lf (int_repr n).
Proof.
  destruct n; simpl.
  - repeat constructor. discriminate.
  - apply no_lf_digits, uint_digits_decimal.
  - apply no_lf_cons; [discriminate|].
    apply no_lf_digits, uint_digits_decimal.
Qed.

Lemma no_lf_format_repr (ds : list Z) (pt : Z) :
  Forall is_decimal_digit ds -> no_lf (format_repr ds pt).
Proof.
  intros Hds. unfold format_repr.
  destruct ((pt <=? -4) || (16 <? pt)).
  - destruct Hds as [|d r Hd Hr]; [constructor|].
    apply no_lf_cons;
      [unfold digit_char, is_decimal_digit in *; lia|].
    apply no_lf_app.
    + destruct r; [constructor|].
      apply no_lf_cons; [discriminate | apply no_lf_digits; assumption].
    + apply no_lf_cons; [discriminate|].
      apply no_lf_cons; [destruct (pt - 1 <? 0); discriminate|].
      apply no_lf_digits.
      pose proof (digits_of_decimal (Z.abs (pt - 1))) as H.
      destruct (digits_of (Z.abs (pt - 1))) as [|a [|b l]]; try assumption.
      constructor; [unfold is_decimal_digit; lia | assumption].
  - destruct (pt <=? 0).
    + do 2 (apply no_lf_cons; [discriminate|]).
      apply no_lf_digits, Forall_app. split; [apply zeros_decimal | assumption].
    + destruct (Z.of_nat (List.length ds) <=? pt).
      * apply no_lf_app; [|repeat constructor; discriminate].
        apply no_lf_digits, Forall_app.
        split; [assumption | apply zeros_decimal].
      * assert (H : Forall is_decimal_digit
                      (firstn (Z.to_nat pt) ds ++ skipn (Z.to_nat pt) ds))
          by (rewrite firstn_skipn; assumption).
        apply Forall_app in H. destruct H as [H1 H2].
        apply no_lf_app; [apply no_lf_digits; assumption|].
        apply no_lf_cons; [discriminate|].
        apply no_lf_digits; assumption.
Qed.

Lemma no_lf_float_repr (x : float) : no_lf (float_repr x).
Proof.
  unfold float_repr.
  destruct (Prim2SF x) as [[|]| [|] | |s m e];
    try (repeat constructor; discriminate).
  destruct (shortest m e) as [c k].
  apply no_lf_app; [destruct s; repeat constructor; discriminate|].
  apply no_lf_format_repr.
  apply Forall_rev, drop_zeros_decimal, Forall_rev, digits_of_decimal.
Qed.

Lemma no_lf_floatstr (x : float) : no_lf (floatstr x).
Proof.
  unfold floatstr. pose proof (no_lf_float_repr x) as H.
  destruct (Prim2SF x) as [[|]| [|] | |s m e]; try assumption;
    repeat constructor; discriminate.
Qed.

Lemma hex_char_not_lf (d : Z) : 0 <= d -> hex_char d <> 10.
Proof. unfold hex_char. destruct (d <? 10); lia. Qed.

Lemma no_lf_escape_char (c : Z) : no_lf (escape_char c).
Proof.
  unfold escape_char.
  repeat match goal with
    | |- no_lf (if ?b then _ else _) => destruct b eqn:?
    end; try (repeat constructor; discriminate).
  - apply andb_true_iff in Heqb6. destruct Heqb6 as [H0 H1].
    apply Z.leb_le in H0. apply Z.ltb_lt in H1.
    do 4 (apply no_lf_cons; [discriminate|]).
    apply no_lf_cons; [apply hex_char_not_lf, Z.div_pos; lia|].
    apply no_lf_cons; [|constructor].
    apply hex_char_not_lf. apply Z.mod_pos_bound. lia.
  - apply Z.eqb_neq in Heqb1. repeat constructor. assumption.
Qed.

Lemma no_lf_encode_str (s : str) : no_lf (encode_str s).
Proof.
  unfold encode_str. apply no_lf_cons; [discriminate|].
  apply no_lf_app; [|repeat constructor; discriminate].
  induction s as [|c s IH]; simpl; [constructor|].
  apply no_lf_app; [apply no_lf_escape_char | assumption].
Qed.

(** [json.dumps] never writes a line feed: inside a string it is
    escaped, and nothing else produces one. *)
Lemma no_lf_dumps (v : pyval) : no_lf (dumps v).
Proof.
  induction v as [ | [|] | z | x | s | l IH | d IH] using pyval_ind;
    try (repeat constructor; discriminate).
  - apply no_lf_int_repr.
  - apply no_lf_floatstr.
  - apply no_lf_encode_str.
  - simpl. apply no_lf_cons; [discriminate|].
    apply no_lf_app; [|repeat constructor; discriminate].
    induction IH as [|x r Hx Hr IHr]; [constructor|].
    apply no_lf_app; [assumption|].
    destruct r; [constructor|].
    do 2 (apply no_lf_cons; [discriminate|]). assumption.
  - simpl. apply no_lf_cons; [discriminate|].
    apply no_lf_app; [|repeat constructor; discriminate].
    induction IH as [|[k x] r Hx Hr IHr]; [constructor|].
    apply (no_lf_app (encode_str k)); [apply no_lf_encode_str|].
    do 2 (apply no_lf_cons; [discriminate|]).
    apply no_lf_app; [assumption|].
    destruct r; [constructor|].
    do 2 (apply no_lf_cons; [discriminate|]). assumption.
Qed.

(** C9: whatever the file held (or when there was no file), [write]
    leaves a file that holds the former text followed by one line for the
    fact: the text [json.dumps] gives for it, which has no line feed, and a
    line feed. What was there before stays, at the same place, and the text
    only grows. *)
Theorem write_appends_one_line :
  forall (f : HypnotizedFact) (st : storage),
    stores.write f st = Some (content st ++ dumps (to_dict f) ++ [10])
    /\ ~ In 10 (dumps (to_dict f))
    /\ firstn (List.length (content st)) (content (stores.write f st))
       = content st
    /\ (List.length (content st) < List.length (content (stores.write f st)))%nat.
Proof.
  intros f st. split; [reflexivity|]. split; [|split].
  - pose proof (no_lf_dumps (to_dict f)) as H.
    unfold no_lf in H. rewrite Forall_forall in H.
    intros Hin. apply (H 10 Hin). reflexivity.
  - unfold stores.write, line_of. simpl content at 2.
    rewrite firstn_app, Nat.sub_diag, firstn_all. simpl.
    apply app_nil_r.
  - unfold stores.write, line_of. simpl content at 2.
    rewrite !length_app. simpl. lia.
Qed.

(* ================================================================== *)
(** * Reading back what the file holds *)
(* ================================================================== *)

(** A line that [json.loads] reads as something else than an object makes
    [from_dict] raise [TypeError] at [data["id"]]; the [except] clause of
    [read_all] names [JSONDecodeError] and [KeyError] only. *)
Lemma read_line_not_an_object (now line : str) (v : pyval) :
  strip line <> [] -> loads line = Ok v ->
  (forall d, v <> PyDict d) ->
  read_line now line = Raise TypeError.
Proof.
  intros Hs Hl Hv. unfold read_line.
  destruct (strip line); [congruence|].
  rewrite Hl. simpl.
  destruct v; try reflexivity. exfalso. eapply Hv. reflexivity.
Qed.

(** A line that [json.loads] refuses is passed over. *)
Lemma read_line_not_json (now line : str) :
  loads line = Raise JSONDecodeError -> read_line now line = Ok None.
Proof.
  intros Hl. unfold read_line. destruct (strip line); [reflexivity|].
  rewrite Hl. reflexivity.
Qed.

(** Two valid lines around a line that is valid JSON but no object. *)
Definition store_with_null_line : storage :=
  Some (jtxt "{'id': 'a', 'fact': 'b', 'priority': 0.5}" ++ [10]
        ++ jtxt "null" ++ [10]
        ++ jtxt "{'id': 'c', 'fact': 'd', 'priority': 1.0}" ++ [10]).

(** The same two lines around a line that is no JSON at all. *)
Definition store_with_broken_line : storage :=
  Some (jtxt "{'id': 'a', 'fact': 'b', 'priority': 0.5}" ++ [10]
        ++ jtxt "{'id': 'x', 'fa" ++ [10]
        ++ jtxt "{'id': 'c', 'fact': 'd', 'priority': 1.0}" ++ [10]).

(** C1, where the code departs from it: with the line [null] between two
    valid lines [read_all] raises [TypeError] instead of returning the two
    facts, while a line that is no JSON between the same two lines is
    passed over as the claim says. *)
Theorem read_all_raises_on_null_line :
  forall clk : clock,
    stores.read_all clk store_with_null_line = Raise TypeError
    /\ stores.read_all clk store_with_broken_line
       = Ok [ mkFact (txt "a") (txt "b") 0.5 None [] (clk 0%nat);
              mkFact (txt "c") (txt "d") 1 None [] (clk 2%nat) ].
Proof. intros clk. split; vm_compute; reflexivity. Qed.

(** A fact whose text holds U+2028 LINE SEPARATOR. *)
Definition fact_with_line_separator : HypnotizedFact :=
  mkFact (txt "a") (txt "x" ++ [8232] ++ txt "y") 0.5 None []
    (txt "2024-01-01T00:00:00Z").

(** C4, where the code departs from it: one fact written to a new store
    is not read back. [json.dumps(..., ensure_ascii=False)] writes U+2028
    as it is, [splitlines] then cuts the line in two at it, and neither
    half is JSON. The same happens through [inject]. *)
Theorem write_then_read_all_loses_fact :
  forall clk : clock,
    stores.read_all clk (stores.write fact_with_line_separator (init None))
    = Ok []
    /\ core.read_all clk
         (snd (inject (fun s => s) (mkHypnotizer 0.95) (txt "a")
                 (txt "2024-01-01T00:00:00Z") (txt "x" ++ [8232] ++ txt "y")
                 (Number 0.5) None None (init None)))
       = Ok [].
Proof. intros clk. split; vm_compute; reflexivity. Qed.

(** A file in which the text of the first fact holds U+2028 as the JSON
    escape, as any other JSON writer puts it. *)
Definition store_with_escaped_separator : storage :=
  Some (jtxt "{'id': 'a', 'fact': 'x\u2028y', 'priority': 0.5}" ++ [10]
        ++ jtxt "{'id': 'b', 'fact': 'z', 'priority': 0.5}" ++ [10]).

(** C5, where the code departs from it: both facts are read; deleting the
    second returns true; afterwards the first, which was not deleted, is
    gone too, because the rewrite put U+2028 down unescaped. *)
Theorem delete_loses_remaining_fact :
  stores.read_all example_clock store_with_escaped_separator
  = Ok [ mkFact (txt "a") (txt "x" ++ [8232] ++ txt "y") 0.5 None []
           (example_clock 0%nat);
         mkFact (txt "b") (txt "z") 0.5 None [] (example_clock 1%nat) ]
  /\ fst (stores.delete example_clock (txt "b") store_with_escaped_separator)
     = Ok true
  /\ stores.read_all example_clock
       (snd (stores.delete example_clock (txt "b")
               store_with_escaped_separator))
     = Ok [].
Proof. split; [|split]; vm_compute; reflexivity. Qed.

(* ================================================================== *)
(** * [to_dict] and [from_dict] *)
(* ================================================================== *)

Lemma from_dict_of_to_dict (now : str) (f : HypnotizedFact) :
  from_dict now (to_dict f) = Ok f.
Proof. destruct f as [i t p [c|] m ca]; reflexivity. Qed.

(** X1: [from_dict] undoes [to_dict], whatever the clock says: the dictionary
    of a fact carries its time stamp. *)
Theorem from_dict_to_dict :
  forall (now : str) (f : HypnotizedFact), from_dict now (to_dict f) = Ok f.
Proof. intros now f. apply from_dict_of_to_dict. Qed.

Lemma from_dict_KeyError (now : str) (d : dict) :
  dict_get (txt "id") d = None \/ dict_get (txt "fact") d = None
  \/ dict_get (txt "priority") d = None ->
  from_dict now (PyDict d) = Raise KeyError.
Proof.
  intros H. unfold from_dict, getitem, get, bind.
  destruct (dict_get (txt "id") d); [|reflexivity].
  destruct (dict_get (txt "fact") d); [|reflexivity].
  destruct (dict_get (txt "priority") d); [|reflexivity].
  destruct H as [H | [H | H]]; discriminate.
Qed.

(** X2: What [from_dict] raises: [TypeError] on anything but a dictionary,
    [KeyError] on a dictionary without one of the keys id, fact and
    priority, whatever the other keys hold. *)
Theorem from_dict_missing_key :
  forall (now : str) (data : pyval),
    ((forall d, data <> PyDict d) -> from_dict now data = Raise TypeError)
    /\ (forall d,
           data = PyDict d ->
           dict_get (txt "id") d = None \/ dict_get (txt "fact") d = None
           \/ dict_get (txt "priority") d = None ->
           from_dict now data = Raise KeyError).
Proof.
  intros now data. split.
  - intros H. destruct data; try reflexivity. exfalso. eapply H. reflexivity.
  - intros d ->. apply from_dict_KeyError.
Qed.

Lemma from_dict_missing_key_witness :
  from_dict (txt "now") (PyList []) = Raise TypeError
  /\ from_dict (txt "now")
       (PyDict [(txt "id", PyStr (txt "a")); (txt "priority", PyFloat 0.5)])
     = Raise KeyError.
Proof.
  split.
  - apply (proj1 (from_dict_missing_key (txt "now") (PyList []))).
    intros d. discriminate.
  - apply (proj2 (from_dict_missing_key (txt "now")
                    (PyDict [(txt "id", PyStr (txt "a"));
                             (txt "priority", PyFloat 0.5)]))
             [(txt "id", PyStr (txt "a")); (txt "priority", PyFloat 0.5)]).
    + reflexivity.
    + right; left; reflexivity.
Defined.

(** X3: The keys category, metadata and created_at may be missing: the fact
    then has no category, empty metadata, and the time of the call as its
    time stamp. *)
Theorem from_dict_defaults :
  forall (now : str) (d : dict) (i t : str) (p : float),
    dict_get (txt "id") d = Some (PyStr i) ->
    dict_get (txt "fact") d = Some (PyStr t) ->
    dict_get (txt "priority") d = Some (PyFloat p) ->
    dict_get (txt "category") d = None ->
    dict_get (txt "metadata") d = None ->
    dict_get (txt "created_at") d = None ->
    from_dict now (PyDict d) = Ok (mkFact i t p None [] now).
Proof.
  intros now d i t p Hi Ht Hp Hc Hm Ha.
  unfold from_dict, getitem, get, bind.
  rewrite Hi, Ht, Hp, Hc, Hm, Ha. reflexivity.
Qed.

Lemma from_dict_defaults_witness :
  from_dict (txt "now")
    (PyDict [(txt "id", PyStr (txt "a")); (txt "fact", PyStr (txt "b"));
             (txt "priority", PyFloat 0.5)])
  = Ok (mkFact (txt "a") (txt "b") 0.5 None [] (txt "now")).
Proof.
  apply (from_dict_defaults (txt "now")
           [(txt "id", PyStr (txt "a")); (txt "fact", PyStr (txt "b"));
            (txt "priority", PyFloat 0.5)]); reflexivity.
Defined.

(* ================================================================== *)
(** * Lines on which [read_all] does not raise *)
(* ================================================================== *)

(** On a dictionary [from_dict] raises [KeyError] or nothing. *)
Lemma from_dict_dict_raises (now : str) (d : dict) (e : exn) :
  from_dict now (PyDict d) = Raise e -> e = KeyError.
Proof.
  unfold from_dict, getitem, get, bind, as_str, as_float, as_optional_str,
    as_dict.
  repeat match goal with
    | |- context [match dict_get ?k ?m with _ => _ end] =>
        destruct (dict_get k m)
    | |- context [match ?x with _ => _ end] => is_var x; destruct x
    end;
    intros H; try discriminate; injection H as <-; reflexivity.
Qed.

(** A line that is blank, that [json.loads] rejects with
    [JSONDecodeError], or that [json.loads] reads as an object. *)
Definition tolerated (line : str) : Prop :=
  strip line = []
  \/ loads line = Raise JSONDecodeError
  \/ exists d, loads line = Ok (PyDict d).

Lemma read_line_tolerated (now line : str) (e : exn) :
  tolerated line -> read_line now line <> Raise e.
Proof.
  unfold read_line. intros [H | [H | (d & H)]].
  - rewrite H. discriminate.
  - destruct (strip line); [discriminate|]. rewrite H. discriminate.
  - destruct (strip line); [discriminate|]. rewrite H. simpl.
    destruct (from_dict now (PyDict d)) as [f | e' |] eqn:Hf; simpl;
      try discriminate.
    rewrite (from_dict_dict_raises _ _ _ Hf). discriminate.
Qed.

Lemma read_lines_tolerated (clk : clock) (lines : list str) (i : nat)
    (e : exn) :
  Forall tolerated lines -> read_lines clk i lines <> Raise e.
Proof.
  intros H. revert i.
  induction H as [|line rest Hl Hr IH]; intros i; [discriminate|].
  simpl. pose proof (read_line_tolerated (clk i) line e Hl) as H1.
  destruct (read_line (clk i) line) as [r | e' |]; simpl.
  - specialize (IH (S i)).
    destruct (read_lines clk (S i) rest) as [facts | e' |]; simpl;
      [discriminate | congruence | discriminate].
  - congruence.
  - discriminate.
Qed.

(** X4: [read_all] raises nothing on a text of which every line is blank, is
    rejected by [json.loads] with [JSONDecodeError], or is read by
    [json.loads] as an object: on an object [from_dict] raises [KeyError]
    or nothing, and the [except] clause handles both exceptions. *)
Theorem read_all_tolerates_lines :
  forall (clk : clock) (text : str),
    Forall tolerated (splitlines text) ->
    forall e : exn, stores.read_all clk (Some text) <> Raise e.
Proof.
  intros clk text H e. apply read_lines_tolerated. exact H.
Qed.

Lemma read_all_tolerates_lines_witness :
  Forall tolerated (splitlines (content store_with_broken_line))
  /\ forall e : exn,
       stores.read_all example_clock store_with_broken_line <> Raise e.
Proof.
  assert (H : Forall tolerated (splitlines (content store_with_broken_line))).
  { let l := eval vm_compute in (splitlines (content store_with_broken_line))
    in change (splitlines (content store_with_broken_line)) with l.
    apply Forall_cons; [|apply Forall_cons; [|apply Forall_cons]].
    - right. right. eexists. vm_compute. reflexivity.
    - right. left. vm_compute. reflexivity.
    - right. right. eexists. vm_compute. reflexivity.
    - apply Forall_nil. }
  split; [exact H|].
  exact (read_all_tolerates_lines example_clock
           (content store_with_broken_line) H).
Defined.

(* ================================================================== *)
(** * Lines written, lines read *)
(* ================================================================== *)

(** No character of [s] is a line boundary of [str.splitlines]. *)
Definition no_linebreak (s : str) : bool :=
  forallb (fun c => negb (is_linebreak c)) s.

(** [s] ends with a line feed. *)
Fixpoint ends_lf (s : str) : bool :=
  match s with
  | [] => false
  | [c] => c =? 10
  | _ :: r => ends_lf r
  end.

(** The JSON text of the fact reads back as the dictionary of the fact:
    what the [json] module owes the store. *)
Definition round_trips (f : HypnotizedFact) : Prop :=
  loads (dumps (to_dict f)) = Ok (to_dict f).

(** A fact whose line survives the file: [json] reads its text back and
    the text holds no line boundary. *)
Definition line_safe (f : HypnotizedFact) : Prop :=
  round_trips f /\ no_linebreak (dumps (to_dict f)) = true.

Lemma splitlines_from_nil : splitlines_from [] [] = [].
Proof. reflexivity. Qed.

(** A text without line boundary, then a line feed: one line. *)
Lemma splitlines_from_line (l cur rest : str) :
  no_linebreak l = true ->
  splitlines_from cur (l ++ 10 :: rest)
  = (rev cur ++ l) :: splitlines_from [] rest.
Proof.
  revert cur; induction l as [|c l IH]; intros cur Hl.
  - simpl. rewrite app_nil_r. destruct rest; reflexivity.
  - simpl in Hl. apply andb_true_iff in Hl. destruct Hl as [Hc Hl].
    apply negb_true_iff in Hc.
    change ((c :: l) ++ 10 :: rest) with (c :: (l ++ 10 :: rest)).
    simpl splitlines_from. rewrite Hc, (IH (c :: cur) Hl). simpl.
    rewrite <- app_assoc. reflexivity.
Qed.

Lemma ends_lf_app (a l : str) : ends_lf (a ++ l ++ [10]) = true.
Proof.
  induction a as [|c a IH]; simpl.
  - induction l as [|d l IHl]; [reflexivity|].
    simpl. destruct (l ++ [10]) eqn:E; [destruct l; discriminate|].
    exact IHl.
  - destruct (a ++ l ++ [10]) eqn:E; [|exact IH].
    destruct a; [destruct l|]; discriminate.
Qed.

(** After a text that ends with a line feed, the lines of what follows
    are found as if it stood alone. *)
Lemma splitlines_from_app (n : nat) :
  forall (a cur b : str),
    (List.length a <= n)%nat -> ends_lf a = true ->
    splitlines_from cur (a ++ b)
    = splitlines_from cur a ++ splitlines_from [] b.
Proof.
  induction n as [|n IH]; intros a cur b Hn He.
  - destruct a; [discriminate | simpl in Hn; lia].
  - destruct a as [|c [|d r]]; [discriminate| |].
    + simpl in He. apply Z.eqb_eq in He. subst c.
      simpl. destruct b; reflexivity.
    + change ((c :: d :: r) ++ b) with (c :: d :: (r ++ b)).
      simpl splitlines_from.
      destruct (is_linebreak c).
      * destruct ((c =? 13) && (d =? 10)).
        -- simpl. f_equal.
           destruct r as [|x r]; [reflexivity|].
           apply IH; [simpl in *; lia | exact He].
        -- simpl. f_equal.
           apply (IH (d :: r) [] b); [simpl in *; lia | exact He].
      * apply (IH (d :: r) (c :: cur) b); [simpl in *; lia | exact He].
Qed.

Lemma splitlines_append_line (text l : str) :
  text = [] \/ ends_lf text = true ->
  no_linebreak l = true ->
  splitlines (text ++ l ++ [10]) = splitlines text ++ [l].
Proof.
  intros Ht Hl. unfold splitlines.
  assert (H1 : splitlines_from [] (l ++ [10]) = [l]).
  { rewrite splitlines_from_line by assumption. reflexivity. }
  destruct Ht as [-> | Ht].
  - simpl. exact H1.
  - rewrite (splitlines_from_app (List.length text)) by auto.
    rewrite H1. reflexivity.
Qed.

Lemma lstrip_nil (s : str) : lstrip s = [] -> forallb isspace s = true.
Proof.
  induction s as [|c s IH]; simpl; [reflexivity|].
  destruct (isspace c); [exact IH | discriminate].
Qed.

(** A text that starts with a character that is no white space is not
    blank. *)
Lemma strip_not_blank (c : Z) (s : str) :
  isspace c = false -> strip (c :: s) <> [].
Proof.
  intros Hc H. unfold strip, rstrip in H. simpl in H. rewrite Hc in H.
  apply (f_equal (@rev Z)) in H. rewrite rev_involutive in H. simpl in H.
  apply lstrip_nil in H. rewrite forallb_app in H.
  apply andb_true_iff in H. destruct H as [_ H]. simpl in H.
  rewrite Hc in H. discriminate.
Qed.

Lemma dumps_to_dict_head (f : HypnotizedFact) :
  exists s, dumps (to_dict f) = 123 :: s.
Proof. eexists. reflexivity. Qed.

(** The line of a fact that [json] reads back gives the fact. *)
Lemma read_line_of_fact (now : str) (f : HypnotizedFact) :
  round_trips f -> read_line now (dumps (to_dict f)) = Ok (Some f).
Proof.
  intros H. unfold read_line.
  destruct (dumps_to_dict_head f) as [s Hs].
  pose proof (strip_not_blank 123 s eq_refl) as Hb.
  rewrite <- Hs in Hb.
  destruct (strip (dumps (to_dict f))); [congruence|].
  rewrite H. simpl. rewrite from_dict_of_to_dict. reflexivity.
Qed.

Lemma read_lines_app (clk : clock) (l1 l2 : list str) (i : nat) :
  read_lines clk i (l1 ++ l2)
  = (a <- read_lines clk i l1 ;;
     b <- read_lines clk (i + List.length l1) l2 ;;
     Ok (a ++ b)).
Proof.
  revert i; induction l1 as [|line l1 IH]; intros i.
  - simpl. rewrite Nat.add_0_r.
    destruct (read_lines clk i l2); reflexivity.
  - simpl. rewrite IH, <- plus_n_Sm. simpl. unfold bind.
    destruct (read_line (clk i) line) as [[f|] | e |]; try reflexivity;
      destruct (read_lines clk (Datatypes.S i) l1); try reflexivity;
      destruct (read_lines clk (Datatypes.S (i + List.length l1)) l2);
      reflexivity.
Qed.

Lemma read_lines_single (clk : clock) (i : nat) (line : str) :
  read_lines clk i [line]
  = (r <- read_line (clk i) line ;;
     Ok (match r with Some f => [f] | None => [] end)).
Proof.
  simpl. destruct (read_line (clk i) line) as [[f|] | e |]; reflexivity.
Qed.

Lemma read_all_write (clk : clock) (st : storage)
    (facts : list HypnotizedFact) (f : HypnotizedFact) :
  content st = [] \/ ends_lf (content st) = true ->
  stores.read_all clk st = Ok facts ->
  line_safe f ->
  stores.read_all clk (stores.write f st) = Ok (facts ++ [f]).
Proof.
  intros Hst Hr [Hf Hl].
  assert (Hc : read_lines clk 0 (splitlines (content st)) = Ok facts).
  { destruct st as [text|]; [exact Hr|].
    simpl in Hr. injection Hr as <-. reflexivity. }
  change (stores.read_all clk (stores.write f st))
    with (read_lines clk 0
            (splitlines (content st ++ dumps (to_dict f) ++ [10]))).
  rewrite splitlines_append_line by assumption.
  rewrite read_lines_app, Hc, read_lines_single.
  rewrite read_line_of_fact by assumption. reflexivity.
Qed.

(** X5: The store reads a fact back after the facts it already held, when
    the file was empty, absent or ended with a line feed, [json] reads the
    text of the fact back, and that text holds no line boundary. *)
Theorem write_then_read_all :
  forall (clk : clock) (st : storage) (facts : list HypnotizedFact)
         (f : HypnotizedFact),
    content st = [] \/ ends_lf (content st) = true ->
    stores.read_all clk st = Ok facts ->
    line_safe f ->
    stores.read_all clk (stores.write f st) = Ok (facts ++ [f]).
Proof. intros clk st facts f. apply read_all_write. Qed.

Lemma example_store_read_all :
  stores.read_all example_clock example_store = Ok example_facts.
Proof. vm_compute. reflexivity. Qed.

Lemma example_fact_line_safe :
  line_safe (example_fact "one" 0.85 (Some (txt "a"))).
Proof. split; vm_compute; reflexivity. Qed.

Lemma write_then_read_all_witness :
  stores.read_all example_clock
    (stores.write (example_fact "one" 0.85 (Some (txt "a"))) example_store)
  = Ok (example_facts ++ [example_fact "one" 0.85 (Some (txt "a"))]).
Proof.
  apply (write_then_read_all example_clock example_store example_facts
           (example_fact "one" 0.85 (Some (txt "a")))).
  - right. vm_compute. reflexivity.
  - exact example_store_read_all.
  - exact example_fact_line_safe.
Defined.

Lemma fold_write_content (fs : list HypnotizedFact) (st : storage) :
  fs <> [] ->
  fold_left (fun st f => stores.write f st) fs st
  = Some (content st ++ flat_map line_of fs).
Proof.
  revert st; induction fs as [|f fs IH]; intros st Hne; [congruence|].
  simpl. destruct fs as [|g fs].
  - simpl. rewrite app_nil_r. reflexivity.
  - rewrite IH by discriminate.
    change (content (stores.write f st)) with (content st ++ line_of f).
    rewrite <- app_assoc. reflexivity.
Qed.

Lemma fold_write_read_all (clk : clock) (fs : list HypnotizedFact) :
  forall (st : storage) (facts : list HypnotizedFact),
    content st = [] \/ ends_lf (content st) = true ->
    stores.read_all clk st = Ok facts ->
    Forall line_safe fs ->
    stores.read_all clk (fold_left (fun st f => stores.write f st) fs st)
    = Ok (facts ++ fs).
Proof.
  induction fs as [|f fs IH]; intros st facts Hst Hr Hs.
  - simpl. rewrite app_nil_r. exact Hr.
  - inversion Hs as [|? ? Hf Hfs]; subst. simpl.
    replace (facts ++ f :: fs) with ((facts ++ [f]) ++ fs)
      by (rewrite <- app_assoc; reflexivity).
    apply IH; [|apply read_all_write; assumption | assumption].
    right.
    change (content (stores.write f st))
      with (content st ++ dumps (to_dict f) ++ [10]).
    apply ends_lf_app.
Qed.

(** X6: Facts written one by one to a new store are read back, all of them
    and in the order written, when [json] reads the text of each back and
    no text holds a line boundary. *)
Theorem writes_then_read_all :
  forall (clk : clock) (fs : list HypnotizedFact),
    Forall line_safe fs ->
    stores.read_all clk
      (fold_left (fun st f => stores.write f st) fs (init None))
    = Ok fs.
Proof.
  intros clk fs Hs.
  apply (fold_write_read_all clk fs (init None) []);
    [left; reflexivity | reflexivity | assumption].
Qed.

Lemma example_facts_line_safe : Forall line_safe example_facts.
Proof. repeat constructor; vm_compute; reflexivity. Qed.

Lemma writes_then_read_all_witness :
  stores.read_all example_clock
    (fold_left (fun st f => stores.write f st) example_facts (init None))
  = Ok example_facts.
Proof.
  apply (writes_then_read_all example_clock example_facts).
  exact example_facts_line_safe.
Defined.

(* ================================================================== *)
(** * [delete] *)
(* ================================================================== *)

(** The facts [delete] keeps. *)
Definition kept (fact_id : str) (facts : list HypnotizedFact)
    : list HypnotizedFact :=
  filter (fun f => negb (str_eqb (id f) fact_id)) facts.

Lemma kept_all (fact_id : str) (facts : list HypnotizedFact) :
  (forall f, In f facts -> id f <> fact_id) -> kept fact_id facts = facts.
Proof.
  intros H. unfold kept. apply forallb_filter_id. apply forallb_forall.
  intros f Hf. apply negb_true_iff, str_eqb_neq, H, Hf.
Qed.

Lemma kept_shorter (fact_id : str) (facts : list HypnotizedFact)
    (f : HypnotizedFact) :
  In f facts -> id f = fact_id ->
  (List.length (kept fact_id facts) < List.length facts)%nat.
Proof.
  intros Hf Hi. unfold kept.
  pose proof (filter_length (fun f => negb (str_eqb (id f) fact_id)) facts)
    as H.
  assert (Hin : In f (filter (fun x => negb (negb (str_eqb (id x) fact_id)))
                        facts)).
  { apply filter_In. split; [assumption|].
    rewrite negb_involutive. apply str_eqb_eq. assumption. }
  destruct (filter (fun x => negb (negb (str_eqb (id x) fact_id))) facts);
    [contradiction|].
  simpl in H. lia.
Qed.

Lemma kept_no_id (fact_id : str) (facts : list HypnotizedFact)
    (f : HypnotizedFact) :
  In f (kept fact_id facts) -> id f <> fact_id.
Proof.
  unfold kept. rewrite filter_In. intros [_ H].
  apply str_eqb_neq, negb_true_iff. exact H.
Qed.

Lemma delete_no_such_id (clk : clock) (fact_id : str) (st : storage)
    (facts : list HypnotizedFact) :
  stores.read_all clk st = Ok facts ->
  (forall f, In f facts -> id f <> fact_id) ->
  stores.delete clk fact_id st = (Ok false, st).
Proof.
  intros Hr Hno. unfold stores.delete. rewrite Hr.
  fold (kept fact_id facts). rewrite kept_all by assumption.
  rewrite Nat.eqb_refl. reflexivity.
Qed.

(** X7: Deleting an identifier that no fact of the store has returns false
    and leaves the file as it is; when [read_all] raises, [delete] raises
    the same exception and leaves the file as it is too. *)
Theorem delete_unknown_id :
  forall (clk : clock) (fact_id : str) (st : storage),
    (forall facts,
        stores.read_all clk st = Ok facts ->
        (forall f, In f facts -> id f <> fact_id) ->
        stores.delete clk fact_id st = (Ok false, st))
    /\ (forall e,
           stores.read_all clk st = Raise e ->
           stores.delete clk fact_id st = (Raise e, st)).
Proof.
  intros clk fact_id st. split.
  - intros facts. apply delete_no_such_id.
  - intros e Hr. unfold stores.delete. rewrite Hr. reflexivity.
Qed.

Lemma delete_unknown_id_witness :
  stores.delete example_clock (txt "four") example_store
  = (Ok false, example_store)
  /\ stores.delete example_clock (txt "a") store_with_null_line
     = (Raise TypeError, store_with_null_line).
Proof.
  split.
  - apply (proj1 (delete_unknown_id example_clock (txt "four") example_store)
             example_facts).
    + exact example_store_read_all.
    + intros f Hf. simpl in Hf.
      destruct Hf as [<- | [<- | [<- | []]]]; discriminate.
  - apply (proj2 (delete_unknown_id example_clock (txt "a")
                    store_with_null_line)).
    vm_compute. reflexivity.
Defined.

Lemma read_all_lines_of (clk : clock) (fs : list HypnotizedFact) :
  Forall line_safe fs ->
  stores.read_all clk (Some (flat_map line_of fs)) = Ok fs.
Proof.
  intros Hs. destruct fs as [|f fs]; [reflexivity|].
  pose proof (fold_write_read_all clk (f :: fs) (init None) []
                (or_introl eq_refl) eq_refl Hs) as H.
  rewrite fold_write_content in H by discriminate. exact H.
Qed.

(** The line of the fact can be put into the file: the UTF-8 codec
    takes it. *)
Definition storable (f : HypnotizedFact) : Prop :=
  encodable (line_of f) = true.

Lemma write_all_cons (f : HypnotizedFact) (rest : list HypnotizedFact)
    (written : str) :
  write_all (f :: rest) written
  = if encodable (line_of f)
    then write_all rest (written ++ line_of f)
    else (Raise UnicodeEncodeError, Some written).
Proof. reflexivity. Qed.

Lemma write_all_storable (facts : list HypnotizedFact) (written : str) :
  Forall storable facts ->
  write_all facts written = (Ok true, Some (written ++ flat_map line_of facts)).
Proof.
  intros H. revert written.
  induction H as [|f facts Hf Hs IH]; intros written.
  - simpl. rewrite app_nil_r. reflexivity.
  - unfold storable in Hf. rewrite write_all_cons, Hf, IH.
    change (flat_map line_of (f :: facts))
      with (line_of f ++ flat_map line_of facts).
    rewrite <- app_assoc. reflexivity.
Qed.

Lemma write_all_refused (before after : list HypnotizedFact)
    (g : HypnotizedFact) (written : str) :
  Forall storable before -> ~ storable g ->
  write_all (before ++ g :: after) written
  = (Raise UnicodeEncodeError, Some (written ++ flat_map line_of before)).
Proof.
  intros H Hg. revert written.
  induction H as [|f facts Hf Hs IH]; intros written.
  - change ([] ++ g :: after) with (g :: after). rewrite write_all_cons.
    unfold storable in Hg. destruct (encodable (line_of g)); [congruence|].
    simpl. rewrite app_nil_r. reflexivity.
  - change ((f :: facts) ++ g :: after) with (f :: (facts ++ g :: after)).
    unfold storable in Hf. rewrite write_all_cons, Hf, IH.
    change (flat_map line_of (f :: facts))
      with (line_of f ++ flat_map line_of facts).
    rewrite <- app_assoc. reflexivity.
Qed.

Lemma delete_rewrites (clk : clock) (fact_id : str) (st : storage)
    (facts : list HypnotizedFact) (f : HypnotizedFact) :
  stores.read_all clk st = Ok facts ->
  In f facts -> id f = fact_id ->
  stores.delete clk fact_id st = write_all (kept fact_id facts) [].
Proof.
  intros Hr Hf Hi. unfold stores.delete. rewrite Hr.
  fold (kept fact_id facts).
  pose proof (kept_shorter fact_id facts f Hf Hi) as Hlt.
  destruct (Nat.eqb_spec (List.length (kept fact_id facts))
              (List.length facts)); [lia | reflexivity].
Qed.

(** X8: Deleting an identifier that a fact read from the store has rewrites
    the file with the other facts, none of which has the identifier.
    When the codec takes the line of each of them, [delete] returns true
    and the file holds their lines, in their former order; when moreover
    [json] reads each of these lines back and none holds a line boundary,
    the store reads exactly the other facts at any later time, and
    deleting the identifier again returns false without touching the file.
    When the codec refuses the line of one of them, [delete] raises
    [UnicodeEncodeError] and the file is left with the lines of the facts
    before that one only. *)
Theorem delete_known_id :
  forall (clk : clock) (fact_id : str) (st : storage)
         (facts : list HypnotizedFact) (f : HypnotizedFact),
    stores.read_all clk st = Ok facts ->
    In f facts -> id f = fact_id ->
    (forall g, In g (kept fact_id facts) -> id g <> fact_id)
    /\ (Forall storable (kept fact_id facts) ->
        stores.delete clk fact_id st
        = (Ok true, Some (flat_map line_of (kept fact_id facts)))
        /\ (Forall line_safe (kept fact_id facts) ->
            forall clk' : clock,
              stores.read_all clk'
                (Some (flat_map line_of (kept fact_id facts)))
              = Ok (kept fact_id facts)
              /\ stores.delete clk' fact_id
                   (Some (flat_map line_of (kept fact_id facts)))
                 = (Ok false,
                    Some (flat_map line_of (kept fact_id facts)))))
    /\ (forall (before after : list HypnotizedFact) (g : HypnotizedFact),
           kept fact_id facts = before ++ g :: after ->
           Forall storable before -> ~ storable g ->
           stores.delete clk fact_id st
           = (Raise UnicodeEncodeError, Some (flat_map line_of before))).
Proof.
  intros clk fact_id st facts f Hr Hf Hi.
  pose proof (delete_rewrites clk fact_id st facts f Hr Hf Hi) as Hd.
  split; [intros g; apply kept_no_id|]. split.
  - intros Hst. split.
    + rewrite Hd. apply (write_all_storable _ [] Hst).
    + intros Hs clk'.
      assert (Hk : stores.read_all clk'
                     (Some (flat_map line_of (kept fact_id facts)))
                   = Ok (kept fact_id facts))
        by (apply read_all_lines_of; assumption).
      split; [exact Hk|].
      apply (delete_no_such_id clk' fact_id _ _ Hk).
      intros g. apply kept_no_id.
  - intros before after g Hk Hb Hg. rewrite Hd, Hk.
    apply (write_all_refused before after g [] Hb Hg).
Qed.

(** A file whose second fact holds a lone surrogate, written as the JSON
    escape. *)
Definition store_with_surrogate : storage :=
  Some (jtxt "{'id': 'a', 'fact': 'x', 'priority': 0.5}" ++ [10]
        ++ jtxt "{'id': 's', 'fact': 'y\ud800', 'priority': 0.5}" ++ [10]
        ++ jtxt "{'id': 'b', 'fact': 'z', 'priority': 0.5}" ++ [10]
        ++ jtxt "{'id': 'c', 'fact': 'w', 'priority': 0.5}" ++ [10]).

Definition surrogate_fact (i t : str) : HypnotizedFact :=
  mkFact i t 0.5 None [] (txt "2024-06-01T00:00:00Z").

Lemma delete_known_id_witness :
  (stores.delete example_clock (txt "two") example_store
   = (Ok true, Some (flat_map line_of (kept (txt "two") example_facts)))
   /\ forall clk' : clock,
        stores.read_all clk'
          (Some (flat_map line_of (kept (txt "two") example_facts)))
        = Ok (kept (txt "two") example_facts)
        /\ stores.delete clk' (txt "two")
             (Some (flat_map line_of (kept (txt "two") example_facts)))
           = (Ok false,
              Some (flat_map line_of (kept (txt "two") example_facts))))
  /\ stores.delete example_clock (txt "b") store_with_surrogate
     = (Raise UnicodeEncodeError,
        Some (line_of (surrogate_fact (txt "a") (txt "x")))).
Proof.
  split.
  - destruct (proj1 (proj2 (delete_known_id example_clock (txt "two")
                              example_store example_facts
                              (example_fact "two" 0.99 (Some (txt "a")))
                              example_store_read_all
                              (or_intror (or_introl eq_refl)) eq_refl)))
      as [H1 H2].
    + repeat constructor.
    + split; [exact H1|]. apply H2.
      apply Forall_filter. exact example_facts_line_safe.
  - assert (Hr : stores.read_all example_clock store_with_surrogate
                 = Ok [ surrogate_fact (txt "a") (txt "x");
                        surrogate_fact (txt "s") (txt "y" ++ [55296]);
                        surrogate_fact (txt "b") (txt "z");
                        surrogate_fact (txt "c") (txt "w") ])
      by (vm_compute; reflexivity).
    rewrite <- (app_nil_r (line_of (surrogate_fact (txt "a") (txt "x")))).
    apply (proj2 (proj2 (delete_known_id example_clock (txt "b")
                           store_with_surrogate _
                           (surrogate_fact (txt "b") (txt "z")) Hr
                           (or_intror (or_intror (or_introl eq_refl)))
                           eq_refl))
             [surrogate_fact (txt "a") (txt "x")]
             [surrogate_fact (txt "c") (txt "w")]
             (surrogate_fact (txt "s") (txt "y" ++ [55296]))).
    + reflexivity.
    + repeat constructor.
    + unfold storable. vm_compute. discriminate.
Defined.

(* ================================================================== *)
(** * Edges of [recall] *)
(* ================================================================== *)

Lemma contains_empty (hay : str) : contains hay [] = true.
Proof. destruct hay; reflexivity. Qed.

(** X9: The empty query finds every fact: [recall] with the empty text as
    query is [recall] without query. *)
Theorem recall_empty_query :
  forall (unicode_lower : str -> str) (list_sort : nan_sort)
         (Store : Type) (ms : MemoryStore Store)
         (clk : clock) (cat : option str) (min_priority : float) (st : Store),
    recall unicode_lower list_sort clk (Some []) cat min_priority st
    = recall unicode_lower list_sort clk None cat min_priority st.
Proof.
  intros ul ls Store ms clk cat min_priority st. unfold recall.
  destruct (core.read_all clk st) as [facts | e |]; try reflexivity.
  simpl. do 2 f_equal.
  erewrite filter_ext; [apply filter_all|].
  intros f. apply contains_empty.
Qed.

(** X10: A threshold that is not above zero (zero, a negative number, a NaN)
    switches the priority test off: [recall] then answers as with the
    threshold 0.0, and returns facts of any priority. *)
Theorem recall_threshold_off :
  forall (unicode_lower : str -> str) (list_sort : nan_sort)
         (Store : Type) (ms : MemoryStore Store)
         (clk : clock) (query cat : option str) (min_priority : float)
         (st : Store),
    PrimFloat.ltb 0 min_priority = false ->
    recall unicode_lower list_sort clk query cat min_priority st
    = recall unicode_lower list_sort clk query cat 0 st.
Proof.
  intros ul ls Store ms clk query cat min_priority st H. unfold recall.
  rewrite H. reflexivity.
Qed.

Lemma recall_threshold_off_witness :
  recall (fun s => s) example_sort example_clock None None nan example_store
  = recall (fun s => s) example_sort example_clock None None 0 example_store
  /\ recall (fun s => s) example_sort example_clock None None (-3) example_store
     = recall (fun s => s) example_sort example_clock None None 0 example_store.
Proof.
  split.
  - apply (recall_threshold_off (fun s => s) example_sort storage JSONLMemoryStore
             example_clock None None nan example_store).
    reflexivity.
  - apply (recall_threshold_off (fun s => s) example_sort storage JSONLMemoryStore
             example_clock None None (-3)%float example_store).
    reflexivity.
Defined.

(** X11: A category is listed by [list_categories] exactly when [recall] with
    that category (and nothing else) finds a fact. *)
Theorem listed_category_is_recalled :
  forall (unicode_lower : str -> str) (list_sort : nan_sort)
         (Store : Type) (ms : MemoryStore Store)
         (clk : clock) (st : Store) (snapshot : list HypnotizedFact) (c : str),
    core.read_all clk st = Ok snapshot ->
    exists cats result,
      list_categories clk st = Ok cats
      /\ recall unicode_lower list_sort clk None (Some c) 0 st = Ok result
      /\ (In c cats <-> result <> []).
Proof.
  intros ul ls Store ms clk st snapshot c H.
  exists (sorted (set_of (categories_of snapshot))),
         (sort_by_priority ls (selected ul None (Some c) 0 snapshot)).
  split; [apply list_categories_sorted_set; assumption|].
  split; [apply recall_selected; assumption|].
  rewrite listed_categories_In. split.
  - intros (f & Hf & Hcat) Hnil.
    assert (Hs : In f (selected ul None (Some c) 0 snapshot)).
    { apply selected_In. repeat split; try assumption; try reflexivity.
      unfold matches_category. rewrite Hcat. apply str_eqb_refl. }
    apply (Permutation_in _ (Permutation_sym (sort_by_priority_perm ls _))) in Hs.
    rewrite Hnil in Hs. contradiction.
  - intros Hne.
    destruct (sort_by_priority ls (selected ul None (Some c) 0 snapshot))
      as [|f r] eqn:E; [congruence|].
    assert (Hs : In f (selected ul None (Some c) 0 snapshot)).
    { apply (Permutation_in _ (sort_by_priority_perm ls _)). rewrite E.
      left; reflexivity. }
    apply selected_In in Hs. destruct Hs as (Hf & Hm & _).
    exists f. split; [assumption|].
    unfold matches_category in Hm.
    destruct (category f) as [c'|]; [|discriminate].
    apply str_eqb_eq in Hm. congruence.
Qed.

Lemma listed_category_is_recalled_witness :
  exists cats result,
    list_categories example_clock example_store = Ok cats
    /\ recall (fun s => s) example_sort example_clock None (Some (txt "b")) 0 example_store
       = Ok result
    /\ (In (txt "b") cats <-> result <> []).
Proof.
  apply (listed_category_is_recalled (fun s => s) example_sort storage JSONLMemoryStore
           example_clock example_store example_facts (txt "b")).
  exact example_store_read.
Defined.

(* ================================================================== *)
(** * Lines [read_all] passes over *)
(* ================================================================== *)

(** A line that is blank, that [json.loads] rejects, or that holds an
    object without one of the keys id, fact and priority. *)
Definition passed_over (line : str) : Prop :=
  strip line = []
  \/ loads line = Raise JSONDecodeError
  \/ exists d, loads line = Ok (PyDict d)
               /\ (dict_get (txt "id") d = None
                   \/ dict_get (txt "fact") d = None
                   \/ dict_get (txt "priority") d = None).

Lemma read_line_passed_over (now line : str) :
  passed_over line -> read_line now line = Ok None.
Proof.
  unfold read_line. intros [H | [H | (d & H & Hd)]].
  - rewrite H. reflexivity.
  - destruct (strip line); [reflexivity|]. rewrite H. reflexivity.
  - destruct (strip line); [reflexivity|]. rewrite H. simpl.
    rewrite (from_dict_KeyError now d Hd). reflexivity.
Qed.

(** X12: A last line that is blank, is no JSON, or is an object without one of
    the keys id, fact and priority changes nothing to what [read_all]
    returns or raises. *)
Theorem read_all_passes_over_line :
  forall (clk : clock) (text line : str),
    text = [] \/ ends_lf text = true ->
    no_linebreak line = true ->
    passed_over line ->
    stores.read_all clk (Some (text ++ line ++ [10]))
    = stores.read_all clk (Some text).
Proof.
  intros clk text line Ht Hl Hp. unfold stores.read_all.
  rewrite splitlines_append_line by assumption.
  rewrite read_lines_app, read_lines_single.
  rewrite (read_line_passed_over _ _ Hp).
  destruct (read_lines clk 0 (splitlines text)) as [facts | e |];
    try reflexivity.
  simpl. rewrite app_nil_r. reflexivity.
Qed.

Lemma read_all_passes_over_line_witness :
  stores.read_all example_clock
    (Some (content example_store ++ jtxt "{'id': 'x', 'fa" ++ [10]))
  = stores.read_all example_clock (Some (content example_store))
  /\ stores.read_all example_clock
       (Some (content example_store
              ++ jtxt "{'id': 'x', 'priority': 0.5}" ++ [10]))
     = stores.read_all example_clock (Some (content example_store)).
Proof.
  split.
  - apply (read_all_passes_over_line example_clock (content example_store)
             (jtxt "{'id': 'x', 'fa")).
    + right. vm_compute. reflexivity.
    + vm_compute. reflexivity.
    + right. left. vm_compute. reflexivity.
  - apply (read_all_passes_over_line example_clock (content example_store)
             (jtxt "{'id': 'x', 'priority': 0.5}")).
    + right. vm_compute. reflexivity.
    + vm_compute. reflexivity.
    + right. right.
      exists [(txt "id", PyStr (txt "x")); (txt "priority", PyFloat 0.5)].
      split; [vm_compute; reflexivity|]. right. left. reflexivity.
Defined.

(* ================================================================== *)
(** * The threshold of [recall] *)
(* ================================================================== *)

(** X13: Raising the threshold of [recall] only takes facts away: what is
    recalled at a threshold is recalled at every threshold below it. *)
Theorem recall_threshold_monotone :
  forall (unicode_lower : str -> str) (list_sort : nan_sort)
         (Store : Type) (ms : MemoryStore Store)
         (clk : clock) (query cat : option str) (low high : float)
         (st : Store) (snapshot : list HypnotizedFact),
    core.read_all clk st = Ok snapshot ->
    PrimFloat.leb low high = true ->
    exists above below,
      recall unicode_lower list_sort clk query cat high st = Ok above
      /\ recall unicode_lower list_sort clk query cat low st = Ok below
      /\ forall f, In f above -> In f below.
Proof.
  intros ul ls Store ms clk query cat low high st snapshot H Hle.
  exists (sort_by_priority ls (selected ul query cat high snapshot)),
         (sort_by_priority ls (selected ul query cat low snapshot)).
  split; [apply recall_selected; assumption|].
  split; [apply recall_selected; assumption|].
  intros f Hf.
  apply (Permutation_in _ (sort_by_priority_perm ls _)) in Hf.
  apply (Permutation_in _ (Permutation_sym (sort_by_priority_perm ls _))).
  apply selected_In in Hf. destruct Hf as (Hin & Hc & Hp & Hq).
  apply selected_In. repeat split; try assumption.
  unfold matches_priority in *.
  destruct (PrimFloat.ltb 0 low) eqn:E0; [|reflexivity].
  assert (E1 : PrimFloat.ltb 0 high = true).
  { destruct (PrimFloat.ltb 0 high) eqn:E1; [reflexivity|].
    exfalso. revert E0 E1 Hle.
    rewrite !ltb_spec, leb_spec.
    generalize (Prim2SF low) (Prim2SF high). intros x y.
    change (Prim2SF 0) with (S754_zero false).
    unfold SFltb, SFleb.
    destruct x as [[|]| [|] | |[|] mx ex], y as [[|]| [|] | |[|] my ey];
      simpl; congruence. }
  rewrite E1 in Hp. eapply leb_trans; eassumption.
Qed.

Lemma recall_threshold_monotone_witness :
  exists above below,
    recall (fun s => s) example_sort example_clock None None 0.9 example_store = Ok above
    /\ recall (fun s => s) example_sort example_clock None None 0.8 example_store = Ok below
    /\ forall f, In f above -> In f below.
Proof.
  apply (recall_threshold_monotone (fun s => s) example_sort storage JSONLMemoryStore
           example_clock None None 0.8 0.9 example_store example_facts).
  - exact example_store_read.
  - reflexivity.
Defined.

(* ================================================================== *)
(** * The text [inject] stores *)
(* ================================================================== *)

(** The text does not begin with white space. *)
Definition head_not_space (s : str) : Prop :=
  match s with
  | c :: _ => isspace c = false
  | [] => True
  end.

Lemma lstrip_spec (s : str) :
  exists a, s = a ++ lstrip s /\ forallb isspace a = true
            /\ head_not_space (lstrip s).
Proof.
  induction s as [|c s (a & E & Ha & Hh)]; [exists []; repeat split|].
  simpl. destruct (isspace c) eqn:Hc.
  - exists (c :: a). simpl. rewrite Hc, Ha. rewrite <- E. auto.
  - exists []. simpl. auto.
Qed.

Lemma lstrip_fixed (s : str) : head_not_space s -> lstrip s = s.
Proof. destruct s as [|c s]; simpl; [reflexivity|]. intros ->. reflexivity. Qed.

Lemma forallb_rev (A : Type) (p : A -> bool) (l : list A) :
  forallb p l = true -> forallb p (rev l) = true.
Proof.
  rewrite !forallb_forall. intros H x Hx. apply H, in_rev. exact Hx.
Qed.

Lemma rstrip_spec (s : str) :
  exists b, s = rstrip s ++ b /\ forallb isspace b = true
            /\ head_not_space (rev (rstrip s)).
Proof.
  destruct (lstrip_spec (rev s)) as (a & E & Ha & Hh).
  exists (rev a). unfold rstrip. rewrite rev_involutive.
  split; [|split; [apply forallb_rev; exact Ha | exact Hh]].
  rewrite <- rev_app_distr, <- E, rev_involutive. reflexivity.
Qed.

Lemma strip_spec (s : str) :
  (exists a b, s = a ++ strip s ++ b
               /\ forallb isspace a = true /\ forallb isspace b = true)
  /\ head_not_space (strip s) /\ head_not_space (rev (strip s)).
Proof.
  destruct (lstrip_spec s) as (a & Ea & Ha & Hh).
  destruct (rstrip_spec (lstrip s)) as (b & Eb & Hb & Hl).
  fold (strip s) in Eb, Hl.
  split; [exists a, b; rewrite <- Eb; auto|].
  split; [|exact Hl].
  destruct (strip s) as [|c r]; [exact I|].
  rewrite Eb in Hh. exact Hh.
Qed.

Lemma strip_fixed (s : str) :
  head_not_space s -> head_not_space (rev s) -> strip s = s.
Proof.
  intros H1 H2. unfold strip, rstrip.
  rewrite (lstrip_fixed s H1), (lstrip_fixed (rev s) H2).
  apply rev_involutive.
Qed.

(** X14: The text of the fact [inject] makes is the text given without the
    white space before and after it: it neither begins nor ends with white
    space, and injecting it again stores the same text. *)
Theorem inject_strips_text :
  forall (unicode_lower : str -> str) (Store : Type) (ms : MemoryStore Store)
         (self : Hypnotizer) (uuid4 now text : str) (p : priority_arg)
         (cat : option str) (meta : option dict) (st : Store),
    let stored := fact (fst (inject unicode_lower self uuid4 now text p cat
                               meta st)) in
    (exists a b, text = a ++ stored ++ b
                 /\ forallb isspace a = true /\ forallb isspace b = true)
    /\ head_not_space stored
    /\ head_not_space (rev stored)
    /\ (forall (uuid4' now' : str) (st' : Store),
           fact (fst (inject unicode_lower self uuid4' now' stored p cat meta
                        st'))
           = stored).
Proof.
  intros ul Store ms self uuid4 now text p cat meta st. simpl.
  destruct (strip_spec text) as (H1 & H2 & H3).
  split; [exact H1|]. split; [exact H2|]. split; [exact H3|].
  intros _ _ _. apply strip_fixed; assumption.
Qed.

(* ================================================================== *)
(** * [inject], [recall], [forget] on the JSONL store *)
(* ================================================================== *)

(** X15: [inject], then [recall], then [forget], on the JSONL store. The file
    is empty, absent or ends with a line feed; [facts] is what the store
    reads at the clock reading [clk]; [json] reads the line of each of
    these facts and of the injected fact back, none of these lines holds a
    line boundary, and the codec takes them all; no fact read has the new
    identifier. Then, at that clock reading, the store after [inject]
    reads [facts] followed by the injected fact, [recall] without filter
    returns the injected fact among the others, and [forget] of the new
    identifier returns true and leaves a file that reads, at any clock
    reading, exactly [facts]. *)
Theorem inject_then_forget :
  forall (unicode_lower : str -> str) (list_sort : nan_sort)
         (self : Hypnotizer)
         (uuid4 now text : str) (p : priority_arg) (cat : option str)
         (meta : option dict) (clk : clock) (st : storage)
         (facts : list HypnotizedFact),
    content st = [] \/ ends_lf (content st) = true ->
    core.read_all clk st = Ok facts ->
    Forall line_safe facts ->
    Forall storable facts ->
    (forall g, In g facts -> id g <> uuid4) ->
    let r := fst (inject unicode_lower self uuid4 now text p cat meta st) in
    let st1 := snd (inject unicode_lower self uuid4 now text p cat meta st) in
    line_safe r ->
    storable r ->
    core.read_all clk st1 = Ok (facts ++ [r])
    /\ (exists result,
           recall unicode_lower list_sort clk None None 0 st1 = Ok result
           /\ In r result)
    /\ (exists st2,
           forget clk uuid4 st1 = (Ok true, st2)
           /\ forall clk' : clock, core.read_all clk' st2 = Ok facts).
Proof.
  intros ul ls self uuid4 now text p cat meta clk st facts Hst Hr Hs Hen Hid
    r st1 Hl _.
  assert (H1 : stores.read_all clk st1 = Ok (facts ++ [r]))
    by (apply read_all_write; assumption).
  split; [exact H1|]. split.
  - exists (sort_by_priority ls (selected ul None None 0 (facts ++ [r]))).
    split; [apply recall_selected; exact H1|].
    apply (Permutation_in _ (Permutation_sym (sort_by_priority_perm ls _))).
    apply selected_In. repeat split.
    apply in_or_app. right. left. reflexivity.
  - assert (Hk : kept uuid4 (facts ++ [r]) = facts).
    { unfold kept. rewrite filter_app. fold (kept uuid4 facts).
      rewrite kept_all by assumption. simpl.
      change (id r) with uuid4. rewrite str_eqb_refl. apply app_nil_r. }
    exists (Some (flat_map line_of facts)). split.
    + unfold forget. simpl.
      rewrite (delete_rewrites clk uuid4 st1 (facts ++ [r]) r H1);
        [|apply in_or_app; right; left; reflexivity | reflexivity].
      rewrite Hk. apply (write_all_storable facts [] Hen).
    + intros clk'. apply read_all_lines_of. assumption.
Qed.

Lemma inject_then_forget_witness :
  let r := fst (inject (fun s => s) (mkHypnotizer 0.95) (txt "four")
                  (txt "2024-06-01T00:00:00Z") (txt "  remember four ")
                  (Tier (txt "high")) (Some (txt "b")) None example_store) in
  let st1 := snd (inject (fun s => s) (mkHypnotizer 0.95) (txt "four")
                    (txt "2024-06-01T00:00:00Z") (txt "  remember four ")
                    (Tier (txt "high")) (Some (txt "b")) None example_store) in
  core.read_all example_clock st1 = Ok (example_facts ++ [r])
  /\ (exists result,
         recall (fun s => s) example_sort example_clock None None 0 st1
         = Ok result
         /\ In r result)
  /\ (exists st2,
         forget example_clock (txt "four") st1 = (Ok true, st2)
         /\ forall clk' : clock, core.read_all clk' st2 = Ok example_facts).
Proof.
  apply (inject_then_forget (fun s => s) example_sort (mkHypnotizer 0.95)
           (txt "four") (txt "2024-06-01T00:00:00Z") (txt "  remember four ")
           (Tier (txt "high")) (Some (txt "b")) None example_clock
           example_store example_facts).
  - right. vm_compute. reflexivity.
  - exact example_store_read.
  - exact example_facts_line_safe.
  - repeat constructor.
  - intros g Hg. simpl in Hg.
    destruct Hg as [<- | [<- | [<- | []]]]; discriminate.
  - split; vm_compute; reflexivity.
  - vm_compute. reflexivity.
Defined.

(* ================================================================== *)
(** * The characters [json.dumps] writes *)
(* ================================================================== *)

(** The printable ASCII characters. *)
Definition printable (c : Z) : Prop := 32 <= c <= 126.

(** The texts a value holds: its strings and the keys of its
    dictionaries. *)
Fixpoint strings_of (v : pyval) : list str :=
  match v with
  | PyStr s => [s]
  | PyList l => flat_map strings_of l
  | PyDict d => flat_map (fun kv => fst kv :: strings_of (snd kv)) d
  | _ => []
  end.

(** The characters [json.dumps] writes as they are: those of the texts
    of the value that are not control characters. *)
Definition raw_char (v : pyval) (c : Z) : Prop :=
  ~ (0 <= c < 32) /\ exists s, In s (strings_of v) /\ In c s.

Lemma Forall_append (A : Type) (P : A -> Prop) (a b : list A) :
  Forall P a -> Forall P b -> Forall P (a ++ b).
Proof. intros Ha Hb. apply Forall_app. split; assumption. Qed.

Lemma printable_digits (ds : list Z) :
  Forall is_decimal_digit ds -> Forall printable (map digit_char ds).
Proof.
  induction 1 as [|d ds Hd Hds IH]; simpl; constructor; [|assumption].
  unfold digit_char, is_decimal_digit, printable in *. lia.
Qed.

Ltac ascii_char :=
  solve [unfold printable; lia | cbv; split; discriminate].

Ltac printable_chars :=
  solve [repeat (constructor; [ascii_char|]); constructor].

Ltac left_printable_chars :=
  solve [repeat (constructor; [left; ascii_char|]); constructor].

Lemma printable_int_repr (n : Z) : Forall printable (int_repr n).
Proof.
  destruct n; simpl.
  - printable_chars.
  - apply printable_digits, uint_digits_decimal.
  - constructor; [unfold printable; lia|].
    apply printable_digits, uint_digits_decimal.
Qed.

Lemma printable_format_repr (ds : list Z) (pt : Z) :
  Forall is_decimal_digit ds -> Forall printable (format_repr ds pt).
Proof.
  intros Hds. unfold format_repr.
  destruct ((pt <=? -4) || (16 <? pt)).
  - destruct Hds as [|d r Hd Hr]; [constructor|].
    constructor;
      [unfold digit_char, is_decimal_digit, printable in *; lia|].
    apply Forall_app. split.
    + destruct r; [constructor|].
      constructor; [unfold printable; lia | apply printable_digits; assumption].
    + constructor; [unfold printable; lia|].
      constructor; [destruct (pt - 1 <? 0); unfold printable; lia|].
      apply printable_digits.
      pose proof (digits_of_decimal (Z.abs (pt - 1))) as H.
      destruct (digits_of (Z.abs (pt - 1))) as [|a [|b l]]; try assumption.
      constructor; [unfold is_decimal_digit; lia | assumption].
  - destruct (pt <=? 0).
    + do 2 (constructor; [unfold printable; lia|]).
      apply printable_digits, Forall_app.
      split; [apply zeros_decimal | assumption].
    + destruct (Z.of_nat (List.length ds) <=? pt).
      * apply Forall_app. split; [|printable_chars].
        apply printable_digits, Forall_app.
        split; [assumption | apply zeros_decimal].
      * assert (H : Forall is_decimal_digit
                      (firstn (Z.to_nat pt) ds ++ skipn (Z.to_nat pt) ds))
          by (rewrite firstn_skipn; assumption).
        apply Forall_app in H. destruct H as [H1 H2].
        apply Forall_app. split; [apply printable_digits; assumption|].
        constructor; [unfold printable; lia|].
        apply printable_digits; assumption.
Qed.

Lemma printable_float_repr (x : float) : Forall printable (float_repr x).
Proof.
  unfold float_repr.
  destruct (Prim2SF x) as [[|]| [|] | |s m e]; try printable_chars.
  destruct (shortest m e) as [c k].
  apply Forall_app. split; [destruct s; printable_chars|].
  apply printable_format_repr.
  apply Forall_rev, drop_zeros_decimal, Forall_rev, digits_of_decimal.
Qed.

Lemma printable_floatstr (x : float) : Forall printable (floatstr x).
Proof.
  unfold floatstr. pose proof (printable_float_repr x) as H.
  destruct (Prim2SF x) as [[|]| [|] | |s m e]; try assumption;
    printable_chars.
Qed.

Lemma printable_hex_char (d : Z) : 0 <= d < 16 -> printable (hex_char d).
Proof. unfold hex_char, printable. destruct (d <? 10) eqn:E; lia. Qed.

(** A character of a string literal is printable or the character
    itself, which is then no control character. *)
Lemma escape_char_spec (c : Z) :
  Forall (fun x => printable x \/ (x = c /\ ~ (0 <= c < 32))) (escape_char c).
Proof.
  unfold escape_char.
  repeat match goal with
    | |- Forall _ (if ?b then _ else _) => destruct b eqn:?
    end;
    try left_printable_chars.
  - apply andb_true_iff in Heqb6. destruct Heqb6 as [H0 H1].
    apply Z.leb_le in H0. apply Z.ltb_lt in H1.
    do 4 (constructor; [left; unfold printable; lia|]).
    constructor; [left; apply printable_hex_char|].
    + split; [apply Z.div_pos; lia | apply Z.div_lt_upper_bound; lia].
    + constructor; [|constructor].
      left. apply printable_hex_char, Z.mod_pos_bound. lia.
  - constructor; [|constructor]. right. split; [reflexivity|].
    apply andb_false_iff in Heqb6. lia.
Qed.

Lemma encode_str_spec (s : str) :
  Forall (fun x => printable x \/ (In x s /\ ~ (0 <= x < 32))) (encode_str s).
Proof.
  unfold encode_str. constructor; [left; unfold printable; lia|].
  apply Forall_app. split; [|constructor; [left; unfold printable; lia|constructor]].
  induction s as [|c s IH]; simpl; [constructor|].
  apply Forall_app. split.
  - eapply Forall_impl; [|apply escape_char_spec].
    intros x [H | [-> H]]; [left; assumption | right; split; auto].
  - eapply Forall_impl; [|exact IH].
    intros x [H | [H1 H2]]; [left; assumption | right; split; auto].
Qed.

Lemma encode_str_out (v : pyval) (s : str) :
  In s (strings_of v) ->
  Forall (fun c => printable c \/ raw_char v c) (encode_str s).
Proof.
  intros Hs. eapply Forall_impl; [|apply encode_str_spec].
  intros x [H | [H1 H2]]; [left; assumption|].
  right. split; [assumption|]. exists s. auto.
Qed.

(** Every character [json.dumps] writes is printable ASCII or a
    character of a text of the value, written as it is. *)
Lemma dumps_out (v : pyval) :
  Forall (fun c => printable c \/ raw_char v c) (dumps v).
Proof.
  induction v as [ | [|] | z | x | s | l IH | d IH] using pyval_ind;
    try left_printable_chars.
  - eapply Forall_impl; [|apply printable_int_repr]. intros; left; assumption.
  - eapply Forall_impl; [|apply printable_floatstr]. intros; left; assumption.
  - apply encode_str_out. left. reflexivity.
  - assert (H : Forall (fun x => Forall (fun c => printable c
                                          \/ raw_char (PyList l) c) (dumps x)) l).
    { rewrite Forall_forall in *. intros x Hx.
      eapply Forall_impl; [|apply IH, Hx].
      intros c [Hc | [Hc (s & Hs & Hin)]]; [left; assumption|].
      right. split; [assumption|]. exists s. split; [|assumption].
      simpl. apply in_flat_map. exists x. auto. }
    simpl. revert H. generalize (raw_char (PyList l)). intros P H.
    constructor; [left; unfold printable; lia|].
    apply Forall_app. split; [|constructor; [left; unfold printable; lia|constructor]].
    clear IH. induction H as [|x r Hx Hr IHr]; [constructor|].
    apply Forall_app. split; [assumption|].
    destruct r; [constructor|].
    do 2 (constructor; [left; unfold printable; lia|]). assumption.
  - assert (H : Forall (fun kv =>
                   Forall (fun c => printable c \/ raw_char (PyDict d) c)
                     (encode_str (fst kv))
                   /\ Forall (fun c => printable c \/ raw_char (PyDict d) c)
                        (dumps (snd kv))) d).
    { rewrite Forall_forall in *. intros kv Hkv. split.
      - apply encode_str_out. simpl. apply in_flat_map. exists kv.
        split; [assumption | left; reflexivity].
      - eapply Forall_impl; [|apply IH, Hkv].
        intros c [Hc | [Hc (s & Hs & Hin)]]; [left; assumption|].
        right. split; [assumption|]. exists s. split; [|assumption].
        simpl. apply in_flat_map. exists kv. split; [assumption|].
        right. assumption. }
    simpl. revert H. generalize (raw_char (PyDict d)). intros P H.
    constructor; [left; unfold printable; lia|].
    apply Forall_app. split; [|constructor; [left; unfold printable; lia|constructor]].
    clear IH. induction H as [|[k x] r [Hk Hx] Hr IHr]; [constructor|].
    apply (Forall_append _ _ (encode_str k)); [exact Hk|].
    do 2 (constructor; [left; unfold printable; lia|]).
    apply Forall_append; [exact Hx|].
    destruct r; [constructor|].
    do 2 (constructor; [left; unfold printable; lia|]). assumption.
Qed.

(** A character that is neither printable nor a control character is
    written as it is. *)
Lemma escape_char_raw (c : Z) :
  ~ printable c -> ~ (0 <= c < 32) -> escape_char c = [c].
Proof.
  intros Hp Hc. unfold escape_char, printable in *.
  repeat match goal with
    | |- (if ?b then _ else _) = _ => destruct b eqn:?
    end; try reflexivity; try lia.
Qed.

Lemma encode_str_raw (s : str) (c : Z) :
  ~ printable c -> ~ (0 <= c < 32) -> In c s -> In c (encode_str s).
Proof.
  intros Hp Hc Hin. unfold encode_str. right. apply in_or_app. left.
  apply in_flat_map. exists c. split; [assumption|].
  rewrite escape_char_raw by assumption. left. reflexivity.
Qed.

Lemma dumps_raw (v : pyval) (c : Z) :
  ~ printable c -> raw_char v c -> In c (dumps v).
Proof.
  intros Hp [Hc (s & Hs & Hin)]. revert s Hs Hin.
  induction v as [ | b | z | x | t | l IH | d IH] using pyval_ind;
    intros s Hs Hin; try (simpl in Hs; contradiction).
  - simpl in Hs. destruct Hs as [<- | []].
    apply encode_str_raw; assumption.
  - simpl in Hs. apply in_flat_map in Hs. destruct Hs as (x & Hx & Hs).
    simpl. right. apply in_or_app. left.
    induction IH as [|y r Hy Hr IHr]; [contradiction|].
    apply in_or_app. destruct Hx as [-> | Hx].
    + left. apply (Hy s); assumption.
    + right. destruct r; [contradiction|]. right. right. apply IHr. exact Hx.
  - simpl in Hs. apply in_flat_map in Hs. destruct Hs as (kv & Hkv & Hs).
    simpl. right. apply in_or_app. left.
    induction IH as [|[k y] r Hy Hr IHr]; [contradiction|].
    apply (in_or_app (encode_str k) _ c).
    destruct Hkv as [<- | Hkv].
    + simpl in Hs. destruct Hs as [<- | Hs].
      * left. apply encode_str_raw; assumption.
      * right. right. right. apply in_or_app. left.
        apply (Hy s); assumption.
    + right. right. right. apply in_or_app. right.
      destruct r; [contradiction|]. right. right. apply IHr. exact Hkv.
Qed.

(** Apart from printable ASCII, [json.dumps] with [ensure_ascii=False]
    writes exactly the characters of the texts of the value that are not
    control characters. *)
Lemma dumps_raw_characters (v : pyval) (c : Z) :
  ~ printable c -> (In c (dumps v) <-> raw_char v c).
Proof.
  intros Hp. split.
  - intros Hin. pose proof (dumps_out v) as H.
    rewrite Forall_forall in H. destruct (H c Hin); tauto.
  - apply dumps_raw. exact Hp.
Qed.

(** The three line boundaries of [str.splitlines] that are not control
    characters: NEL, LINE SEPARATOR and PARAGRAPH SEPARATOR. *)
Definition is_separator (c : Z) : bool :=
  (c =? 133) || (c =? 8232) || (c =? 8233).

Lemma is_linebreak_cases (c : Z) :
  is_linebreak c = true <-> (is_separator c = true \/ 10 <= c <= 13 \/ 28 <= c <= 30).
Proof.
  unfold is_linebreak, is_separator.
  rewrite !orb_true_iff, !andb_true_iff, !Z.leb_le, !Z.eqb_eq. lia.
Qed.

(** The texts of a fact. *)
Definition texts_of (f : HypnotizedFact) : list str :=
  id f :: fact f :: created_at f
  :: match category f with Some c => [c] | None => [] end
  ++ strings_of (PyDict (metadata f)).

(** The keys [to_dict] writes. *)
Definition fact_keys : list str :=
  [txt "id"; txt "fact"; txt "priority"; txt "category"; txt "metadata";
   txt "created_at"].

Lemma fact_keys_printable (s : str) (c : Z) :
  In s fact_keys -> In c s -> printable c.
Proof.
  assert (H : Forall (Forall printable) fact_keys)
    by (repeat (constructor; [printable_chars|]); constructor).
  intros Hs Hc. rewrite Forall_forall in H. specialize (H s Hs).
  rewrite Forall_forall in H. apply H, Hc.
Qed.

Lemma strings_of_to_dict (f : HypnotizedFact) (s : str) :
  In s (strings_of (to_dict f)) <-> In s fact_keys \/ In s (texts_of f).
Proof.
  unfold texts_of, to_dict, fact_keys.
  destruct (category f) as [k|]; simpl; rewrite !in_app_iff; simpl; tauto.
Qed.

(** X16: The line [write] puts down for a fact holds a line boundary of
    [str.splitlines] exactly when a text of the fact (identifier, text,
    category, date, a key or a string of the metadata) holds NEL, LINE
    SEPARATOR or PARAGRAPH SEPARATOR. *)
Theorem written_line_boundary :
  forall (f : HypnotizedFact),
    no_linebreak (dumps (to_dict f)) = false
    <-> exists s c, In s (texts_of f) /\ In c s /\ is_separator c = true.
Proof.
  intros f.
  assert (Hsep : forall c, is_separator c = true ->
                           ~ printable c /\ ~ (0 <= c < 32)).
  { intros c. unfold is_separator, printable.
    rewrite !orb_true_iff, !Z.eqb_eq. lia. }
  split.
  - intros H.
    destruct (forallb (fun c => negb (is_linebreak c)) (dumps (to_dict f)))
      eqn:E; [unfold no_linebreak in H; congruence|]. clear H.
    assert (Hex : exists c, In c (dumps (to_dict f)) /\ is_linebreak c = true).
    { induction (dumps (to_dict f)) as [|c l IH]; [discriminate|].
      simpl in E. apply andb_false_iff in E. destruct E as [E | E].
      - exists c. split; [left; reflexivity|].
        apply negb_false_iff. exact E.
      - destruct (IH E) as (x & Hx & Hb). exists x. split; [right|]; assumption. }
    destruct Hex as (c & Hin & Hb).
    pose proof (dumps_out (to_dict f)) as Ho. rewrite Forall_forall in Ho.
    apply is_linebreak_cases in Hb.
    destruct (Ho c Hin) as [Hp | [Hc (s & Hs & Hcs)]];
      [unfold printable, is_separator in *;
       rewrite !orb_true_iff, !Z.eqb_eq in Hb; lia|].
    destruct Hb as [Hb | Hb]; [|lia].
    exists s, c. split; [|split; assumption].
    apply strings_of_to_dict in Hs. destruct Hs as [Hs | Hs]; [|exact Hs].
    destruct (proj1 (Hsep c Hb)). apply (fact_keys_printable s c); assumption.
  - intros (s & c & Hs & Hcs & Hb).
    destruct (Hsep c Hb) as [Hp Hc].
    assert (Hin : In c (dumps (to_dict f))).
    { apply dumps_raw; [assumption|]. split; [assumption|].
      exists s. split; [|assumption].
      apply strings_of_to_dict. right. exact Hs. }
    unfold no_linebreak.
    destruct (forallb (fun c => negb (is_linebreak c)) (dumps (to_dict f)))
      eqn:E; [|reflexivity].
    rewrite forallb_forall in E. specialize (E c Hin).
    assert (is_linebreak c = true) by (apply is_linebreak_cases; tauto).
    rewrite H in E. discriminate.
Qed.
